(** * fairseq2.nn.transformer.decoder: the standard Transformer decoder

    A shallow embedding of [src/fairseq2/nn/transformer/decoder.py].  The
    decoder is an orchestrator: it owns no arithmetic of its own and drives
    the embedding table, the positional encoder, the decoder layers and a few
    torch operators.  Those collaborators are parameters of the development;
    the control flow, the construction-time validation and the threading of
    the incremental state bag are transcribed from the Python source. *)

From Stdlib Require Import ZArith List String Bool Lia Floats Sorted.
Import ListNotations.

Set Implicit Arguments.
Local Open Scope Z_scope.

(** ** Python prelude *)

Module Py.

(** The exceptions the constructor can raise.  The f-strings of the source
    are kept structured; [message] renders them. *)
Inductive Exception :=
| ValueError_no_layers
| ValueError_layer_model_dim (idx : nat) (layer_model_dim model_dim : Z)
| ValueError_pos_embed_dim (pos_embedding_dim embedding_dim : Z)
| ValueError_math_domain
| OverflowError_int_too_large.

Definition Result (A : Type) : Type := (Exception + A)%type.
Definition raise {A} (e : Exception) : Result A := inl e.
Definition ok {A} (a : A) : Result A := inr a.

Definition is_error {A} (r : Result A) : bool :=
  match r with inl _ => true | inr _ => false end.

Definition digit (n : nat) : string :=
  match n with
  | 0%nat => "0" | 1%nat => "1" | 2%nat => "2" | 3%nat => "3"
  | 4%nat => "4" | 5%nat => "5" | 6%nat => "6" | 7%nat => "7"
  | 8%nat => "8" | _ => "9"
  end%string.

Fixpoint str_nat_fuel (fuel n : nat) : string :=
  match fuel with
  | O => ""%string
  | S fuel' =>
      if (n <? 10)%nat then digit n
      else (str_nat_fuel fuel' (n / 10) ++ digit (n mod 10))%string
  end.

(** [str(n)] for a non-negative int. *)
Definition str_nat (n : nat) : string := str_nat_fuel (S n) n.

(** [str(z)] for an int. *)
Definition str (z : Z) : string :=
  if z <? 0 then ("-" ++ str_nat (Z.to_nat (- z)))%string
  else str_nat (Z.to_nat z).

Definition message (e : Exception) : string :=
  match e with
  | ValueError_no_layers =>
      "`layers` must contain at least one decoder layer."
  | ValueError_layer_model_dim idx d m =>
      "`model_dim` of the decoder layer " ++ str_nat idx ++ " (" ++ str d
      ++ ") does not match `model_dim` (" ++ str m ++ ")."
  | ValueError_pos_embed_dim p e =>
      "`embedding_dim` of `pos_embed` (" ++ str p
      ++ ") does not match `embedding_dim` of `embed` (" ++ str e ++ ")."
  | ValueError_math_domain => "math domain error"
  | OverflowError_int_too_large => "int too large to convert to float"
  end%string.

(** An [Iterable] argument.  A list or tuple hands out a fresh iterator on
    every [iter()]; a generator or any other iterator is its own iterator
    and is exhausted by the first pass over it. *)
Inductive Iterable (A : Type) :=
| Sequence (items : list A)
| Iterator (pending : list A).

(** One complete pass ([for x in it], [list(it)], [extend(it)]): the
    elements seen and the iterable as it is left behind. *)
Definition iterate {A} (it : Iterable A) : list A * Iterable A :=
  match it with
  | Sequence items => (items, Sequence items)
  | Iterator pending => (pending, Iterator [])
  end.

(** [enumerate(xs)], from index [start]. *)
Fixpoint enumerate_from {A} (start : nat) (xs : list A) : list (nat * A) :=
  match xs with
  | [] => []
  | x :: xs' => (start, x) :: enumerate_from (S start) xs'
  end.

Definition enumerate {A} (xs : list A) : list (nat * A) :=
  enumerate_from 0 xs.

(** A Python float is an IEEE 754 binary64; an int converts to it by
    rounding to nearest even and overflows past the largest finite value. *)
Definition float_of_int (z : Z) : Result float :=
  let f := SF2Prim (binary_normalize prec emax z 0 false) in
  if PrimFloat.is_infinity f then raise OverflowError_int_too_large
  else ok f.

(** [math.sqrt] of an int. *)
Definition math_sqrt (z : Z) : Result float :=
  match float_of_int z with
  | inl e => inl e
  | inr f => if z <? 0 then raise ValueError_math_domain
             else ok (PrimFloat.sqrt f)
  end.

End Py.

(** ** torch and fairseq2 types the decoder is built from *)

(** [torch.dtype], as far as the decoder forwards it.  The weight of an
    embedding is a learnable parameter, so its dtype is a floating one. *)
Inductive FloatType := float16 | bfloat16 | float32 | float64.

Inductive DataType :=
| dtype_bool
| dtype_int64
| dtype_float (f : FloatType).

Definition is_floating_point (d : DataType) : bool :=
  match d with
  | dtype_float _ => true
  | _ => false
  end.

Definition Device := string.

(** [fct_kwargs]: device and precision, forwarded and never inspected. *)
Record FactoryKwargs := {
  device : option Device;
  dtype : option DataType
}.

(** Modelled from the spec: the members of [TransformerNormOrder]
    (fairseq2.nn.transformer.norm_order is not under src/); the decoder only
    compares against [POST]. *)
Inductive TransformerNormOrder := POST | PRE | PRE_FINAL.

Definition norm_order_eqb (a b : TransformerNormOrder) : bool :=
  match a, b with
  | POST, POST | PRE, PRE | PRE_FINAL, PRE_FINAL => true
  | _, _ => false
  end.

(** [torch.nn.LayerNorm(normalized_shape, eps, **fct_kwargs)]. *)
Record LayerNorm := {
  normalized_shape : Z;
  eps : float;
  ln_kwargs : FactoryKwargs
}.

(** [InternalDimProjection(inp_dim, out_dim, device, dtype)]: a resettable
    projection with [bias=True]. *)
Record InternalDimProjection := {
  inp_dim : Z;
  out_dim : Z;
  bias : bool;
  proj_kwargs : FactoryKwargs
}.

Definition InternalDimProjection_new (inp out : Z) (kw : FactoryKwargs)
  : InternalDimProjection :=
  {| inp_dim := inp; out_dim := out; bias := true; proj_kwargs := kw |}.

(** Number of learnable scalars of a projection: an [out_dim] by [inp_dim]
    weight and, with [bias], an [out_dim] vector. *)
Definition projection_numel (p : InternalDimProjection) : Z :=
  out_dim p * inp_dim p + (if bias p then out_dim p else 0).

Section Collaborators.

(** [Tensor] is [torch.Tensor] and [Bag] is [IncrementalStateBag]. *)
Variables Tensor Bag : Type.

(** [fairseq2.nn.embedding.Embedding]: the lookup, its width, the reserved
    padding index and the dtype of its weight. *)
Record Embedding := {
  embedding_dim : Z;
  padding_idx : option Z;
  weight_dtype : FloatType;
  embed_forward : Tensor -> Tensor
}.

(** [PositionalEmbedding]: reads the step of the bag, when there is one. *)
Record PositionalEmbedding := {
  pos_embedding_dim : Z;
  pos_forward : Tensor -> option Bag -> Tensor
}.

(** [AttentionMaskGenerator.__call__]. *)
Record AttentionMaskGenerator := {
  mask_forward : Tensor -> Tensor
}.

(** [TransformerDecoderLayer.forward(x, self_attn_mask,
    self_attn_padding_mask, enc_out, enc_padding_mask, state_bag)].  The
    layer returns the new hidden state and mutates the bag it was handed:
    [layer_forward] is the returned tensor, [layer_update] what the call
    leaves in the bag. *)
Record TransformerDecoderLayer := {
  layer_model_dim : Z;
  layer_forward :
    Tensor -> option Tensor -> option Tensor -> option Tensor ->
    option Tensor -> option Bag -> Tensor;
  layer_update :
    Tensor -> option Tensor -> option Tensor -> option Tensor ->
    option Tensor -> Bag -> Bag
}.

(** Modelled from the spec: [ModuleList] (fairseq2.nn.module_list is not
    under src/).  It holds the layers in order together with the LayerDrop
    probability; see [ModuleList_iter] for the iteration policy. *)
Record ModuleList := {
  modules : list TransformerDecoderLayer;
  drop_p : float
}.

(** [ModuleList(layers, layer_drop_p)] makes one pass over [layers]. *)
Definition ModuleList_new (layers : Py.Iterable TransformerDecoderLayer)
    (layer_drop_p : float)
  : ModuleList * Py.Iterable TransformerDecoderLayer :=
  let '(items, layers') := Py.iterate layers in
  ({| modules := items; drop_p := layer_drop_p |}, layers').

(** Modelled from the spec: a layer is skipped with probability [p]; with
    [u] uniform in [0, 1) that is the event [u < p]. *)
Definition layer_dropped (p u : float) : bool := PrimFloat.ltb u p.

(** Modelled from the spec: iteration over the stack.  "During training,
    each layer may be stochastically skipped with probability
    [layer_drop_p] (independently per layer per forward call).  Disabled at
    inference (probability forced to 0 regardless of configured value)."
    [draws] holds one uniform sample per layer.  The result pairs every
    layer that runs with its index in the stack. *)
Definition ModuleList_iter (ml : ModuleList) (training : bool)
    (draws : list float) : list (nat * TransformerDecoderLayer) :=
  let p := if training then drop_p ml else 0%float in
  if PrimFloat.ltb 0%float p then
    filter (fun il => negb (layer_dropped p (nth (fst il) draws 1%float)))
           (Py.enumerate (modules ml))
  else Py.enumerate (modules ml).

(** *** The decoder object *)

Record StandardTransformerDecoder := {
  training : bool;
  model_dim : Z;
  embed : Embedding;
  embed_scale : float;
  pos_embed : option PositionalEmbedding;
  embed_norm : option LayerNorm;
  embed_dropout_p : float;
  inp_dim_proj : option InternalDimProjection;
  self_attn_mask_gen : AttentionMaskGenerator;
  layers : ModuleList;
  layer_norm : option LayerNorm;
  out_dim_proj : option InternalDimProjection
}.

(** [Module.train(mode)] and [Module.eval()], on the decoder's own flag. *)
Definition train (mode : bool) (self : StandardTransformerDecoder)
  : StandardTransformerDecoder :=
  {| training := mode;
     model_dim := model_dim self;
     embed := embed self;
     embed_scale := embed_scale self;
     pos_embed := pos_embed self;
     embed_norm := embed_norm self;
     embed_dropout_p := embed_dropout_p self;
     inp_dim_proj := inp_dim_proj self;
     self_attn_mask_gen := self_attn_mask_gen self;
     layers := layers self;
     layer_norm := layer_norm self;
     out_dim_proj := out_dim_proj self |}.

Definition eval (self : StandardTransformerDecoder) := train false self.

(** Learnable scalars owned by the two dimension adapters. *)
Definition adapter_numel (self : StandardTransformerDecoder) : Z :=
  match inp_dim_proj self with Some p => projection_numel p | None => 0 end
  + match out_dim_proj self with Some p => projection_numel p | None => 0 end.

(** *** Construction *)

(** The loop of lines 174-178: the first layer, in iteration order, whose
    width is not [model_dim] aborts the construction. *)
Fixpoint check_layer_dims (model_dim : Z)
    (ls : list (nat * TransformerDecoderLayer)) : Py.Result unit :=
  match ls with
  | [] => Py.ok tt
  | (idx, layer) :: rest =>
      if negb (layer_model_dim layer =? model_dim) then
        Py.raise (Py.ValueError_layer_model_dim idx (layer_model_dim layer)
                                                 model_dim)
      else check_layer_dims model_dim rest
  end.

(** The default mask generator, [CausalAttentionMaskGenerator()], is a
    collaborator like any other generator. *)
Variable CausalAttentionMaskGenerator : AttentionMaskGenerator.

(** [StandardTransformerDecoder.__init__]. *)
Definition __init__
    (embed : Embedding)
    (pos_embed : option PositionalEmbedding)
    (layers : Py.Iterable TransformerDecoderLayer)
    (no_scale_embed norm_embed : bool)
    (embed_dropout_p : float)
    (self_attn_mask_gen : option AttentionMaskGenerator)
    (layer_drop_p : float)
    (norm_order : TransformerNormOrder)
    (norm_eps : float)
    (device : option Device) (dtype : option DataType)
  : Py.Result StandardTransformerDecoder :=
  let fct_kwargs := {| device := device; dtype := dtype |} in
  let '(layer_list, layers) := ModuleList_new layers layer_drop_p in
  match modules layer_list with
  | [] => Py.raise Py.ValueError_no_layers
  | layer0 :: _ =>
      let model_dim := layer_model_dim layer0 in
      (* the loop walks [layers] again, not [layer_list] *)
      let '(second_pass, _) := Py.iterate layers in
      match check_layer_dims model_dim (Py.enumerate second_pass) with
      | inl e => inl e
      | inr _ =>
          let embedding_dim := embedding_dim embed in
          match (if no_scale_embed then Py.ok 1%float
                 else Py.math_sqrt embedding_dim) with
          | inl e => inl e
          | inr embed_scale =>
              match
                match pos_embed with
                | Some pe =>
                    if negb (pos_embedding_dim pe =? embedding_dim) then
                      Py.raise (Py.ValueError_pos_embed_dim
                                  (pos_embedding_dim pe) embedding_dim)
                    else Py.ok (Some pe)
                | None => Py.ok None
                end
              with
              | inl e => inl e
              | inr pos_embed =>
                  Py.ok
                    {| training := true;
                       model_dim := model_dim;
                       embed := embed;
                       embed_scale := embed_scale;
                       pos_embed := pos_embed;
                       embed_norm :=
                         if norm_embed then
                           Some {| normalized_shape := embedding_dim;
                                   eps := norm_eps;
                                   ln_kwargs := fct_kwargs |}
                         else None;
                       embed_dropout_p := embed_dropout_p;
                       inp_dim_proj :=
                         if negb (embedding_dim =? model_dim) then
                           Some (InternalDimProjection_new
                                   embedding_dim model_dim fct_kwargs)
                         else None;
                       self_attn_mask_gen :=
                         match self_attn_mask_gen with
                         | None => CausalAttentionMaskGenerator
                         | Some g => g
                         end;
                       layers := layer_list;
                       layer_norm :=
                         if negb (norm_order_eqb norm_order POST) then
                           Some {| normalized_shape := model_dim;
                                   eps := norm_eps;
                                   ln_kwargs := fct_kwargs |}
                         else None;
                       out_dim_proj :=
                         if negb (embedding_dim =? model_dim) then
                           Some (InternalDimProjection_new
                                   model_dim embedding_dim fct_kwargs)
                         else None |}
              end
          end
      end
  end.

End Collaborators.

Arguments Embedding : clear implicits.
Arguments PositionalEmbedding : clear implicits.
Arguments AttentionMaskGenerator : clear implicits.
Arguments TransformerDecoderLayer : clear implicits.
Arguments ModuleList : clear implicits.
Arguments StandardTransformerDecoder : clear implicits.

(** ** torch operators the forward pass calls *)

(** The operators are an interface: the development never looks inside a
    tensor.  [Rand] is whatever randomness one training-mode dropout
    consumes.  [Tensor_shape] and [Tensor_dtype] are [x.shape] and [x.dtype],
    [Tensor_eq] is [x.eq(i)], [Tensor_mul] is [x * c], [dropout_train] is
    [F.dropout] with [training=True], [Projection_forward] is [y = xW + b]
    of a resettable projection, and [to_float_mask] is the helper of
    fairseq2.nn.utils (not under src/). *)
Class Torch (Tensor Rand : Type) := {
  Tensor_shape : Tensor -> list Z;
  Tensor_dtype : Tensor -> DataType;
  Tensor_eq : Tensor -> Z -> Tensor;
  Tensor_mul : Tensor -> float -> Tensor;
  dropout_train : Tensor -> float -> Rand -> Tensor;
  LayerNorm_forward : LayerNorm -> Tensor -> Tensor;
  Projection_forward : InternalDimProjection -> Tensor -> Tensor;
  to_float_mask : Tensor -> DataType -> Tensor
}.

(** [F.dropout(x, p, training)]: the identity unless [training]. *)
Definition F_dropout {Tensor Rand} `{Torch Tensor Rand}
    (x : Tensor) (p : float) (training : bool) (r : Rand) : Tensor :=
  if training then dropout_train x p r else x.

(** ** The forward pass *)

Section Forward.

Context {Tensor Bag Rand : Type} `{Torch Tensor Rand}.

Local Abbreviation Decoder := (StandardTransformerDecoder Tensor Bag).
Local Abbreviation Layer := (TransformerDecoderLayer Tensor Bag).

(** The random choices of one call: the dropout noise and one uniform
    sample per layer of the stack. *)
Record Noise := {
  dropout_noise : Rand;
  layer_draws : list float
}.

(** Calls made on collaborators, with their arguments, in program order. *)
Inductive Call :=
| Call_eq (seq : Tensor) (padding_idx : Z)
| Call_to_float_mask (mask : Tensor) (dt : DataType)
| Call_embed (seq : Tensor)
| Call_mul (x : Tensor) (c : float)
| Call_pos_embed (x : Tensor) (state_bag : option Bag)
| Call_embed_norm (x : Tensor)
| Call_dropout (x : Tensor) (p : float) (training : bool)
| Call_inp_dim_proj (x : Tensor)
| Call_mask_gen (x : Tensor)
| Call_layer (idx : nat) (x : Tensor)
    (self_attn_mask self_attn_padding_mask enc_out enc_padding_mask :
       option Tensor)
    (state_bag : option Bag)
| Call_layer_norm (x : Tensor)
| Call_out_dim_proj (x : Tensor).

(** What a call can reach: the module itself, the caller's state bag
    ([None] when the caller passes none), the randomness of this call and
    the log of collaborator calls. *)
Record World := {
  w_self : Decoder;
  w_state_bag : option Bag;
  w_noise : Noise;
  w_trace : list Call
}.

Definition M (A : Type) : Type := World -> A * World.

Definition ret {A} (a : A) : M A := fun w => (a, w).

Definition bind {A B} (m : M A) (k : A -> M B) : M B :=
  fun w => let '(a, w') := m w in k a w'.

Notation "x <- m ;; k" := (bind m (fun x => k))
  (at level 61, m at next level, right associativity).

Definition get_self : M Decoder := fun w => (w_self w, w).
Definition get_state_bag : M (option Bag) := fun w => (w_state_bag w, w).
Definition get_noise : M Noise := fun w => (w_noise w, w).

Definition log (c : Call) : M unit :=
  fun w => (tt, {| w_self := w_self w;
                   w_state_bag := w_state_bag w;
                   w_noise := w_noise w;
                   w_trace := w_trace w ++ [c] |}).

(** A layer call mutates the bag in place. *)
Definition mutate_state_bag (f : Bag -> Bag) : M unit :=
  fun w => (tt, {| w_self := w_self w;
                   w_state_bag := option_map f (w_state_bag w);
                   w_noise := w_noise w;
                   w_trace := w_trace w |}).

(** [for x in xs: acc = body(acc, x)]. *)
Fixpoint for_each {A X} (xs : list X) (body : A -> X -> M A) (acc : A)
  : M A :=
  match xs with
  | [] => ret acc
  | x :: xs' => acc' <- body acc x ;; for_each xs' body acc'
  end.

(** *** Collaborator calls *)

Definition call_eq (seq : Tensor) (p : Z) : M Tensor :=
  _ <- log (Call_eq seq p) ;; ret (Tensor_eq seq p).

Definition call_to_float_mask (mask : Tensor) (dt : DataType) : M Tensor :=
  _ <- log (Call_to_float_mask mask dt) ;; ret (to_float_mask mask dt).

Definition call_embed (e : Embedding Tensor) (seq : Tensor) : M Tensor :=
  _ <- log (Call_embed seq) ;; ret (embed_forward e seq).

Definition call_mul (x : Tensor) (c : float) : M Tensor :=
  _ <- log (Call_mul x c) ;; ret (Tensor_mul x c).

Definition call_pos_embed (pe : PositionalEmbedding Tensor Bag)
    (x : Tensor) : M Tensor :=
  state_bag <- get_state_bag ;;
  _ <- log (Call_pos_embed x state_bag) ;;
  ret (pos_forward pe x state_bag).

Definition call_embed_norm (ln : LayerNorm) (x : Tensor) : M Tensor :=
  _ <- log (Call_embed_norm x) ;; ret (LayerNorm_forward ln x).

Definition call_dropout (x : Tensor) (p : float) (training : bool)
  : M Tensor :=
  noise <- get_noise ;;
  _ <- log (Call_dropout x p training) ;;
  ret (F_dropout x p training (dropout_noise noise)).

Definition call_inp_dim_proj (p : InternalDimProjection) (x : Tensor)
  : M Tensor :=
  _ <- log (Call_inp_dim_proj x) ;; ret (Projection_forward p x).

Definition call_out_dim_proj (p : InternalDimProjection) (x : Tensor)
  : M Tensor :=
  _ <- log (Call_out_dim_proj x) ;; ret (Projection_forward p x).

Definition call_mask_gen (g : AttentionMaskGenerator Tensor) (x : Tensor)
  : M Tensor :=
  _ <- log (Call_mask_gen x) ;; ret (mask_forward g x).

Definition call_layer_norm (ln : LayerNorm) (x : Tensor) : M Tensor :=
  _ <- log (Call_layer_norm x) ;; ret (LayerNorm_forward ln x).

Definition call_layer (idx : nat) (layer : Layer) (x : Tensor)
    (self_attn_mask self_attn_padding_mask enc_out enc_padding_mask :
       option Tensor) : M Tensor :=
  state_bag <- get_state_bag ;;
  _ <- log (Call_layer idx x self_attn_mask self_attn_padding_mask
                       enc_out enc_padding_mask state_bag) ;;
  _ <- mutate_state_bag
         (layer_update layer x self_attn_mask self_attn_padding_mask
                       enc_out enc_padding_mask) ;;
  ret (layer_forward layer x self_attn_mask self_attn_padding_mask
                     enc_out enc_padding_mask state_bag).

(** [iter(self.layers)]: the layers this call runs. *)
Definition iter_layers : M (list (nat * Layer)) :=
  self <- get_self ;;
  noise <- get_noise ;;
  ret (ModuleList_iter (layers self) (training self) (layer_draws noise)).

(** *** Methods of [StandardTransformerDecoder] *)

Definition is_None {A} (o : option A) : bool :=
  match o with None => true | Some _ => false end.

Definition _get_self_attn_padding_mask (seq : Tensor) : M (option Tensor) :=
  self <- get_self ;;
  match padding_idx (embed self) with
  | Some p =>
      mask <- call_eq seq p ;;
      m <- call_to_float_mask mask (dtype_float (weight_dtype (embed self))) ;;
      ret (Some m)
  | None => ret None
  end.

Definition _forward_embed (seq : Tensor) : M Tensor :=
  self <- get_self ;;
  embed <- call_embed (embed self) seq ;;
  embed <- (if negb (PrimFloat.eqb (embed_scale self) 1%float)
            then call_mul embed (embed_scale self)
            else ret embed) ;;
  embed <- match pos_embed self with
           | Some pe => call_pos_embed pe embed
           | None => ret embed
           end ;;
  embed <- match embed_norm self with
           | Some ln => call_embed_norm ln embed
           | None => ret embed
           end ;;
  embed <- (if PrimFloat.ltb 0%float (embed_dropout_p self)
            then call_dropout embed (embed_dropout_p self) (training self)
            else ret embed) ;;
  ret embed.

Definition _forward_decoder_layers (x : Tensor)
    (self_attn_padding_mask enc_out enc_padding_mask : option Tensor)
  : M Tensor :=
  self <- get_self ;;
  state_bag <- get_state_bag ;;
  self_attn_mask <-
    (if training self || is_None state_bag
     then m <- call_mask_gen (self_attn_mask_gen self) x ;; ret (Some m)
     else ret None) ;;
  running <- iter_layers ;;
  x <- for_each running
         (fun x il =>
            call_layer (fst il) (snd il) x self_attn_mask
                       self_attn_padding_mask enc_out enc_padding_mask)
         x ;;
  x <- match layer_norm self with
       | Some ln => call_layer_norm ln x
       | None => ret x
       end ;;
  ret x.

Definition forward (seq : Tensor) (enc_out enc_padding_mask : option Tensor)
  : M Tensor :=
  self_attn_padding_mask <- _get_self_attn_padding_mask seq ;;
  x <- _forward_embed seq ;;
  self <- get_self ;;
  x <- match inp_dim_proj self with
       | Some p => call_inp_dim_proj p x
       | None => ret x
       end ;;
  x <- _forward_decoder_layers x self_attn_padding_mask enc_out
                               enc_padding_mask ;;
  x <- match out_dim_proj self with
       | Some p => call_out_dim_proj p x
       | None => ret x
       end ;;
  ret x.

(** One call [self.forward(seq, enc_out, enc_padding_mask, state_bag)] from
    the outside: the returned tensor and the world it leaves. *)
Definition run_forward (self : Decoder) (noise : Noise) (seq : Tensor)
    (enc_out enc_padding_mask : option Tensor) (state_bag : option Bag)
  : Tensor * World :=
  forward seq enc_out enc_padding_mask
          {| w_self := self; w_state_bag := state_bag;
             w_noise := noise; w_trace := [] |}.

Definition output (r : Tensor * World) : Tensor := fst r.
Definition state_bag_after (r : Tensor * World) : option Bag :=
  w_state_bag (snd r).
Definition trace (r : Tensor * World) : list Call := w_trace (snd r).

End Forward.

Arguments Noise : clear implicits.
Arguments Call : clear implicits.
Arguments World : clear implicits.
Arguments M : clear implicits.

(** ** What one call computes, stage by stage

    The functions below restate the monadic code as plain values: the tensor
    each stage hands on and the collaborator calls it makes.  Section
    [Runs] proves that the methods compute exactly these. *)

Section Stages.

Context {Tensor Bag Rand : Type} `{Torch Tensor Rand}.

Local Abbreviation Decoder := (StandardTransformerDecoder Tensor Bag).
Local Abbreviation Layer := (TransformerDecoderLayer Tensor Bag).
Local Abbreviation Call := (Call Tensor Bag).
Local Abbreviation World := (World Tensor Bag Rand).
Local Abbreviation Noise := (Noise Rand).

Definition logged (w : World) (cs : list Call) : World :=
  {| w_self := w_self w;
     w_state_bag := w_state_bag w;
     w_noise := w_noise w;
     w_trace := w_trace w ++ cs |}.

Definition padding_mask_value (self : Decoder) (seq : Tensor)
  : option Tensor :=
  match padding_idx (embed self) with
  | Some p =>
      Some (to_float_mask (Tensor_eq seq p)
                          (dtype_float (weight_dtype (embed self))))
  | None => None
  end.

Definition padding_mask_calls (self : Decoder) (seq : Tensor) : list Call :=
  match padding_idx (embed self) with
  | Some p =>
      [Call_eq seq p;
       Call_to_float_mask (Tensor_eq seq p)
                          (dtype_float (weight_dtype (embed self)))]
  | None => []
  end.

Definition scales (self : Decoder) : bool :=
  negb (PrimFloat.eqb (embed_scale self) 1%float).

Definition drops (self : Decoder) : bool :=
  PrimFloat.ltb 0%float (embed_dropout_p self).

Definition scaled (self : Decoder) (e : Tensor) : Tensor :=
  if scales self then Tensor_mul e (embed_scale self) else e.

Definition positioned (self : Decoder) (state_bag : option Bag) (e : Tensor)
  : Tensor :=
  match pos_embed self with
  | Some pe => pos_forward pe e state_bag
  | None => e
  end.

Definition normed (self : Decoder) (e : Tensor) : Tensor :=
  match embed_norm self with
  | Some ln => LayerNorm_forward ln e
  | None => e
  end.

Definition dropped (self : Decoder) (r : Rand) (e : Tensor) : Tensor :=
  if drops self
  then F_dropout e (embed_dropout_p self) (training self) r
  else e.

Definition embed_value (self : Decoder) (state_bag : option Bag) (r : Rand)
    (seq : Tensor) : Tensor :=
  dropped self r
    (normed self
       (positioned self state_bag
          (scaled self (embed_forward (embed self) seq)))).

Definition embed_calls (self : Decoder) (state_bag : option Bag)
    (seq : Tensor) : list Call :=
  let e0 := embed_forward (embed self) seq in
  let e1 := scaled self e0 in
  let e2 := positioned self state_bag e1 in
  let e3 := normed self e2 in
  [Call_embed seq]
  ++ (if scales self then [Call_mul e0 (embed_scale self)] else [])
  ++ (if is_None (pos_embed self) then [] else [Call_pos_embed e1 state_bag])
  ++ (if is_None (embed_norm self) then [] else [Call_embed_norm e2])
  ++ (if drops self
      then [Call_dropout e3 (embed_dropout_p self) (training self)]
      else []).

Definition inp_projected (self : Decoder) (x : Tensor) : Tensor :=
  match inp_dim_proj self with
  | Some p => Projection_forward p x
  | None => x
  end.

Definition out_projected (self : Decoder) (x : Tensor) : Tensor :=
  match out_dim_proj self with
  | Some p => Projection_forward p x
  | None => x
  end.

Definition self_attn_mask_value (self : Decoder) (state_bag : option Bag)
    (x : Tensor) : option Tensor :=
  if training self || is_None state_bag
  then Some (mask_forward (self_attn_mask_gen self) x)
  else None.

Section Stack.

Variables self_attn_mask self_attn_padding_mask enc_out enc_padding_mask
  : option Tensor.

(** The hidden state after the layers of [ls] have run in order. *)
Fixpoint layers_value (ls : list (nat * Layer)) (state_bag : option Bag)
    (x : Tensor) : Tensor :=
  match ls with
  | [] => x
  | (_, l) :: ls' =>
      layers_value ls'
        (option_map (layer_update l x self_attn_mask self_attn_padding_mask
                                  enc_out enc_padding_mask) state_bag)
        (layer_forward l x self_attn_mask self_attn_padding_mask
                       enc_out enc_padding_mask state_bag)
  end.

(** The bag as they leave it. *)
Fixpoint layers_bag (ls : list (nat * Layer)) (state_bag : option Bag)
    (x : Tensor) : option Bag :=
  match ls with
  | [] => state_bag
  | (_, l) :: ls' =>
      layers_bag ls'
        (option_map (layer_update l x self_attn_mask self_attn_padding_mask
                                  enc_out enc_padding_mask) state_bag)
        (layer_forward l x self_attn_mask self_attn_padding_mask
                       enc_out enc_padding_mask state_bag)
  end.

(** The calls they receive. *)
Fixpoint layers_calls (ls : list (nat * Layer)) (state_bag : option Bag)
    (x : Tensor) : list Call :=
  match ls with
  | [] => []
  | (idx, l) :: ls' =>
      Call_layer idx x self_attn_mask self_attn_padding_mask enc_out
                 enc_padding_mask state_bag
      :: layers_calls ls'
           (option_map (layer_update l x self_attn_mask
                                     self_attn_padding_mask enc_out
                                     enc_padding_mask) state_bag)
           (layer_forward l x self_attn_mask self_attn_padding_mask
                          enc_out enc_padding_mask state_bag)
  end.

End Stack.

Definition stack_calls (self : Decoder) (noise : Noise)
    (state_bag : option Bag) (pm enc_out enc_padding_mask : option Tensor)
    (x : Tensor) : list Call :=
  let running :=
    ModuleList_iter (layers self) (training self) (layer_draws noise) in
  let mask := self_attn_mask_value self state_bag x in
  let y := layers_value mask pm enc_out enc_padding_mask running
                        state_bag x in
  (if training self || is_None state_bag then [Call_mask_gen x] else [])
  ++ layers_calls mask pm enc_out enc_padding_mask running state_bag x
  ++ (if is_None (layer_norm self) then [] else [Call_layer_norm y]).

Definition stack_value (self : Decoder) (noise : Noise)
    (state_bag : option Bag) (pm enc_out enc_padding_mask : option Tensor)
    (x : Tensor) : Tensor :=
  let running :=
    ModuleList_iter (layers self) (training self) (layer_draws noise) in
  let mask := self_attn_mask_value self state_bag x in
  let y := layers_value mask pm enc_out enc_padding_mask running
                        state_bag x in
  match layer_norm self with
  | Some ln => LayerNorm_forward ln y
  | None => y
  end.

Definition stack_bag (self : Decoder) (noise : Noise)
    (state_bag : option Bag) (pm enc_out enc_padding_mask : option Tensor)
    (x : Tensor) : option Bag :=
  layers_bag (self_attn_mask_value self state_bag x) pm enc_out
             enc_padding_mask
             (ModuleList_iter (layers self) (training self)
                              (layer_draws noise))
             state_bag x.

(** The input of the layer stack and the tensor [forward] returns. *)
Definition stack_input (self : Decoder) (noise : Noise)
    (state_bag : option Bag) (seq : Tensor) : Tensor :=
  inp_projected self (embed_value self state_bag (dropout_noise noise) seq).

Definition forward_value (self : Decoder) (noise : Noise) (seq : Tensor)
    (enc_out enc_padding_mask : option Tensor) (state_bag : option Bag)
  : Tensor :=
  out_projected self
    (stack_value self noise state_bag (padding_mask_value self seq)
                 enc_out enc_padding_mask
                 (stack_input self noise state_bag seq)).

Definition forward_calls (self : Decoder) (noise : Noise) (seq : Tensor)
    (enc_out enc_padding_mask : option Tensor) (state_bag : option Bag)
  : list Call :=
  let x := stack_input self noise state_bag seq in
  let pm := padding_mask_value self seq in
  padding_mask_calls self seq
  ++ embed_calls self state_bag seq
  ++ (if is_None (inp_dim_proj self) then []
      else [Call_inp_dim_proj
              (embed_value self state_bag (dropout_noise noise) seq)])
  ++ stack_calls self noise state_bag pm enc_out enc_padding_mask x
  ++ (if is_None (out_dim_proj self) then []
      else [Call_out_dim_proj
              (stack_value self noise state_bag pm enc_out
                           enc_padding_mask x)]).

(** Reading a trace. *)
Definition is_layer_call (c : Call) : bool :=
  match c with Call_layer _ _ _ _ _ _ _ => true | _ => false end.

Definition is_mask_gen_call (c : Call) : bool :=
  match c with Call_mask_gen _ => true | _ => false end.

Definition is_mul_call (c : Call) : bool :=
  match c with Call_mul _ _ => true | _ => false end.

Definition is_projection_call (c : Call) : bool :=
  match c with
  | Call_inp_dim_proj _ | Call_out_dim_proj _ => true
  | _ => false
  end.

Definition layer_call_index (c : Call) : option nat :=
  match c with Call_layer idx _ _ _ _ _ _ => Some idx | _ => None end.

Definition layer_call_mask (c : Call) : option (option Tensor) :=
  match c with Call_layer _ _ m _ _ _ _ => Some m | _ => None end.

Definition layer_call_padding_mask (c : Call) : option (option Tensor) :=
  match c with Call_layer _ _ _ pm _ _ _ => Some pm | _ => None end.

(** The effect on the bag of the layer call recorded as [c], and of a whole
    trace: only layer calls touch the bag. *)
Definition replay_call (self : Decoder) (bag : option Bag) (c : Call)
  : option Bag :=
  match c with
  | Call_layer idx x m pm enc epm _ =>
      match nth_error (modules (layers self)) idx with
      | Some l => option_map (layer_update l x m pm enc epm) bag
      | None => bag
      end
  | _ => bag
  end.

Definition replay (self : Decoder) (cs : list Call) (bag : option Bag)
  : option Bag :=
  fold_left (replay_call self) cs bag.

End Stages.

(** ** Shapes *)

Section Shapes.

Context {Tensor Bag Rand : Type} `{Torch Tensor Rand}.

(** The shape contracts of the collaborators of one decoder: the embedding
    appends its width, a projection replaces a trailing [inp_dim] by
    [out_dim] (on a tensor that has leading dimensions), and everything else,
    the layers included, keeps the shape. *)
Record ShapeContract (self : StandardTransformerDecoder Tensor Bag)
  : Prop := {
  embed_shape :
    forall s : Tensor,
      Tensor_shape (embed_forward (embed self) s)
      = Tensor_shape s ++ [embedding_dim (embed self)];
  mul_shape :
    forall (x : Tensor) (c : float),
      Tensor_shape (Tensor_mul x c) = Tensor_shape x;
  pos_shape :
    forall pe,
      pos_embed self = Some pe ->
      forall (x : Tensor) (b : option Bag),
        Tensor_shape (pos_forward pe x b) = Tensor_shape x;
  layer_norm_shape :
    forall (ln : LayerNorm) (x : Tensor),
      Tensor_shape (LayerNorm_forward ln x) = Tensor_shape x;
  dropout_shape :
    forall (x : Tensor) (p : float) (r : Rand),
      Tensor_shape (dropout_train x p r) = Tensor_shape x;
  projection_shape :
    forall (p : InternalDimProjection) (x : Tensor) (lead : list Z),
      lead <> [] ->
      Tensor_shape x = lead ++ [inp_dim p] ->
      Tensor_shape (Projection_forward p x) = lead ++ [out_dim p];
  layer_shape :
    forall l,
      In l (modules (layers self)) ->
      forall (x : Tensor) (m pm enc_out enc_padding_mask : option Tensor)
             (b : option Bag),
        Tensor_shape (layer_forward l x m pm enc_out enc_padding_mask b)
        = Tensor_shape x
}.

End Shapes.

(** ** Incremental decoding *)

(** The time axis of a tensor: its length [T], the slice [x[..., :n]] of the
    first [n] positions and the single-position slice [x[..., t:t+1]]. *)
Class TimeAxis (Tensor : Type) := {
  tlen : Tensor -> nat;
  prefix : nat -> Tensor -> Tensor;
  at_step : nat -> Tensor -> Tensor
}.

(** Modelled from the spec: [IncrementalStateBag] (fairseq2.nn.incremental_state
    is not under src/), "recording previously computed key/value
    representations and the current decoding step counter".  The decoder
    never looks inside; the caller creates the bag and advances its step. *)
Class StateBag (Bag : Type) := {
  new_bag : Bag;
  increment_step : Bag -> Bag;
  bag_step : Bag -> nat
}.

Section Incremental.

Context {Tensor Bag Rand : Type} `{Torch Tensor Rand} `{TimeAxis Tensor}
  `{StateBag Bag}.

Local Abbreviation Decoder := (StandardTransformerDecoder Tensor Bag).
Local Abbreviation Layer := (TransformerDecoderLayer Tensor Bag).
Local Abbreviation Noise := (Noise Rand).

(** Modelled from the spec: step-by-step decoding as the caller drives it,
    [bag = IncrementalStateBag()] and then, for [t = 0, 1, ...],
    [outs.append(decoder(seq[:, t:t+1], enc_out, enc_padding_mask, bag))]
    followed by [bag.increment_step()].  The result is the list of per-step
    outputs and the bag after [n] steps. *)
Fixpoint decode_steps (self : Decoder) (noises : nat -> Noise)
    (seq : Tensor) (enc_out enc_padding_mask : option Tensor) (n : nat)
  : list Tensor * option Bag :=
  match n with
  | O => ([], Some new_bag)
  | S t =>
      let '(outs, bag) :=
        decode_steps self noises seq enc_out enc_padding_mask t in
      let r := run_forward self (noises t) (at_step t seq) enc_out
                           enc_padding_mask bag in
      (outs ++ [output r], option_map increment_step (state_bag_after r))
  end.

(** The full, non-incremental pass over the first [n] positions. *)
Definition full_pass (self : Decoder) (noise : Noise) (seq : Tensor)
    (enc_out enc_padding_mask : option Tensor) (n : nat) : Tensor :=
  output (run_forward self noise (prefix n seq) enc_out enc_padding_mask
                      None).

(** *** Contracts of the collaborators *)

Record TimeAxisLaws : Prop := {
  at_step_prefix :
    forall (t n : nat) (x : Tensor),
      (t < n)%nat -> at_step t (prefix n x) = at_step t x;
  prefix_prefix :
    forall (m n : nat) (x : Tensor),
      (m <= n)%nat -> prefix m (prefix n x) = prefix m x;
  tlen_prefix :
    forall (n : nat) (x : Tensor), tlen (prefix n x) = Nat.min n (tlen x)
}.

(** An operator that treats every position on its own. *)
Record position_wise (f : Tensor -> Tensor) : Prop := {
  pw_prefix : forall (n : nat) (x : Tensor), prefix n (f x) = f (prefix n x);
  pw_at_step :
    forall (t : nat) (x : Tensor), at_step t (f x) = f (at_step t x);
  pw_tlen : forall x : Tensor, tlen (f x) = tlen x
}.

Record TorchContract : Prop := {
  eq_position_wise :
    forall p : Z, position_wise (fun x => Tensor_eq x p);
  to_float_mask_position_wise :
    forall dt : DataType, position_wise (fun x => to_float_mask x dt);
  mul_position_wise :
    forall c : float, position_wise (fun x => Tensor_mul x c);
  layer_norm_position_wise :
    forall ln : LayerNorm, position_wise (LayerNorm_forward ln);
  projection_position_wise :
    forall p : InternalDimProjection, position_wise (Projection_forward p)
}.

(** The positional encoder: without a bag it numbers the positions from 0,
    with a bag it continues at the bag's step. *)
Record PositionalContract (pe : PositionalEmbedding Tensor Bag) : Prop := {
  pos_prefix :
    forall (n : nat) (x : Tensor),
      prefix n (pos_forward pe x None) = pos_forward pe (prefix n x) None;
  pos_tlen : forall x : Tensor, tlen (pos_forward pe x None) = tlen x;
  pos_step :
    forall (t : nat) (x : Tensor) (bag : Bag),
      bag_step bag = t ->
      pos_forward pe (at_step t x) (Some bag)
      = at_step t (pos_forward pe x None)
}.

Record StateBagLaws : Prop := {
  new_bag_step : bag_step new_bag = 0%nat;
  increment_step_step :
    forall bag : Bag, bag_step (increment_step bag) = S (bag_step bag)
}.

Section LayerContract.

Variable gen : AttentionMaskGenerator Tensor.
Variables enc_out enc_padding_mask : option Tensor.

(** [cached idx bag x pm]: the entry of layer [idx] in [bag] is what the
    layer has cached after being fed, one step at a time, the positions of
    [x] with padding mask [pm]. *)
Variable cached : nat -> Bag -> Tensor -> option Tensor -> Prop.

(** The incremental contract of the layer at index [idx] of the stack.  The
    full pass is causal; a single step on an up-to-date bag returns the last
    position of the full pass and brings the bag up to date; the layer
    leaves the entries of the other layers and the step counter alone. *)
Record LayerContract (idx : nat) (l : Layer) : Prop := {
  layer_tlen :
    forall (x x0 : Tensor) (pm : option Tensor),
      tlen (layer_forward l x (Some (mask_forward gen x0)) pm enc_out
                          enc_padding_mask None) = tlen x;
  layer_causal :
    forall (n : nat) (x x0 : Tensor) (pm : option Tensor),
      tlen x0 = tlen x ->
      prefix n (layer_forward l x (Some (mask_forward gen x0)) pm enc_out
                              enc_padding_mask None)
      = layer_forward l (prefix n x)
                      (Some (mask_forward gen (prefix n x0)))
                      (option_map (prefix n) pm) enc_out enc_padding_mask
                      None;
  layer_step :
    forall (t : nat) (x x0 : Tensor) (pm : option Tensor) (bag : Bag),
      tlen x0 = tlen x ->
      (t < tlen x)%nat ->
      cached idx bag (prefix t x) (option_map (prefix t) pm) ->
      layer_forward l (at_step t x) None (option_map (at_step t) pm)
                    enc_out enc_padding_mask (Some bag)
      = at_step t (layer_forward l x (Some (mask_forward gen x0)) pm
                                 enc_out enc_padding_mask None)
      /\ cached idx
           (layer_update l (at_step t x) None (option_map (at_step t) pm)
                         enc_out enc_padding_mask bag)
           (prefix (S t) x) (option_map (prefix (S t)) pm);
  layer_frame :
    forall (jdx : nat) (x : Tensor) (m pm : option Tensor) (bag : Bag)
           (y : Tensor) (pmy : option Tensor),
      jdx <> idx ->
      cached jdx bag y pmy ->
      cached jdx (layer_update l x m pm enc_out enc_padding_mask bag) y pmy;
  layer_keeps_step :
    forall (x : Tensor) (m pm : option Tensor) (bag : Bag),
      bag_step (layer_update l x m pm enc_out enc_padding_mask bag)
      = bag_step bag
}.

End LayerContract.

(** Everything the decoder relies on for incremental decoding, for one
    decoder and one encoder output. *)
Record IncrementalContract (self : Decoder)
    (enc_out enc_padding_mask : option Tensor)
    (cached : nat -> Bag -> Tensor -> option Tensor -> Prop) : Prop := {
  ic_time : TimeAxisLaws;
  ic_torch : TorchContract;
  ic_bag : StateBagLaws;
  ic_embed : position_wise (embed_forward (embed self));
  ic_pos :
    forall pe, pos_embed self = Some pe -> PositionalContract pe;
  ic_layers :
    forall (idx : nat) (l : Layer),
      nth_error (modules (layers self)) idx = Some l ->
      LayerContract (self_attn_mask_gen self) enc_out enc_padding_mask
                    cached idx l;
  ic_new :
    forall (idx : nat) (x : Tensor) (pm : option Tensor),
      cached idx new_bag (prefix 0 x) (option_map (prefix 0) pm);
  ic_increment :
    forall (idx : nat) (bag : Bag) (x : Tensor) (pm : option Tensor),
      cached idx bag x pm -> cached idx (increment_step bag) x pm
}.

(** The input of the stack in inference mode, where dropout is the
    identity. *)
Definition stack_input_eval (self : Decoder) (state_bag : option Bag)
    (seq : Tensor) : Tensor :=
  inp_projected self
    (normed self
       (positioned self state_bag
          (scaled self (embed_forward (embed self) seq)))).

(** [synced ... ls bag n x x0 pm]: for every layer of [ls], the bag holds
    what that layer caches for the first [n] positions of its input in the
    full pass that feeds [x] to the first layer of [ls], with the mask
    generated from [x0] and the padding mask [pm]. *)
Fixpoint synced (gen : AttentionMaskGenerator Tensor)
    (enc_out enc_padding_mask : option Tensor)
    (cached : nat -> Bag -> Tensor -> option Tensor -> Prop)
    (ls : list (nat * Layer)) (bag : Bag) (n : nat) (x x0 : Tensor)
    (pm : option Tensor) : Prop :=
  match ls with
  | [] => True
  | (idx, l) :: ls' =>
      cached idx bag (prefix n x) (option_map (prefix n) pm)
      /\ synced gen enc_out enc_padding_mask cached ls' bag n
           (layer_forward l x (Some (mask_forward gen x0)) pm enc_out
                          enc_padding_mask None)
           x0 pm
  end.

End Incremental.


(** * Score projection, representation and the order of calls *)

(** [ScoreProjection(num_embed, embedding_dim)]: a resettable projection from
    [embedding_dim] to [num_embed] with [bias=False].  The record is the one
    every resettable projection shares. *)
Definition ScoreProjection_new (num_embed embedding_dim : Z)
    (kw : FactoryKwargs) : InternalDimProjection :=
  {| inp_dim := embedding_dim; out_dim := num_embed; bias := false;
     proj_kwargs := kw |}.

(** [TransformerDecoder.extra_repr]. *)
Definition extra_repr {Tensor Bag : Type}
    (self : StandardTransformerDecoder Tensor Bag) : string :=
  ("model_dim=" ++ Py.str (model_dim self))%string.

(** The decoder with another mask generator, or another dropout
    probability, and everything else as it is. *)
Definition with_self_attn_mask_gen {Tensor Bag : Type}
    (g : AttentionMaskGenerator Tensor)
    (self : StandardTransformerDecoder Tensor Bag)
  : StandardTransformerDecoder Tensor Bag :=
  {| training := training self;
     model_dim := model_dim self;
     embed := embed self;
     embed_scale := embed_scale self;
     pos_embed := pos_embed self;
     embed_norm := embed_norm self;
     embed_dropout_p := embed_dropout_p self;
     inp_dim_proj := inp_dim_proj self;
     self_attn_mask_gen := g;
     layers := layers self;
     layer_norm := layer_norm self;
     out_dim_proj := out_dim_proj self |}.

Definition with_embed_dropout_p {Tensor Bag : Type} (p : float)
    (self : StandardTransformerDecoder Tensor Bag)
  : StandardTransformerDecoder Tensor Bag :=
  {| training := training self;
     model_dim := model_dim self;
     embed := embed self;
     embed_scale := embed_scale self;
     pos_embed := pos_embed self;
     embed_norm := embed_norm self;
     embed_dropout_p := p;
     inp_dim_proj := inp_dim_proj self;
     self_attn_mask_gen := self_attn_mask_gen self;
     layers := layers self;
     layer_norm := layer_norm self;
     out_dim_proj := out_dim_proj self |}.

Section ProgramOrder.

Context {Tensor Bag : Type}.

Local Abbreviation Call := (Call Tensor Bag).

(** The place of a call in the text of [forward]. *)
Definition stage (c : Call) : nat :=
  match c with
  | Call_eq _ _ => 0
  | Call_to_float_mask _ _ => 1
  | Call_embed _ => 2
  | Call_mul _ _ => 3
  | Call_pos_embed _ _ => 4
  | Call_embed_norm _ => 5
  | Call_dropout _ _ _ => 6
  | Call_inp_dim_proj _ => 7
  | Call_mask_gen _ => 8
  | Call_layer _ _ _ _ _ _ _ => 9
  | Call_layer_norm _ => 10
  | Call_out_dim_proj _ => 11
  end%nat.

Definition layer_index (c : Call) : nat :=
  match c with Call_layer idx _ _ _ _ _ _ => idx | _ => 0%nat end.

(** [a] comes before [b]: an earlier stage, or an earlier layer of the
    stack. *)
Definition before (a b : Call) : Prop :=
  (stage a < stage b)%nat
  \/ (stage a = stage b /\ (layer_index a < layer_index b)%nat).

Definition is_layer_norm_call (c : Call) : bool :=
  match c with Call_layer_norm _ => true | _ => false end.

Definition is_embed_norm_call (c : Call) : bool :=
  match c with Call_embed_norm _ => true | _ => false end.

Definition is_pos_embed_call (c : Call) : bool :=
  match c with Call_pos_embed _ _ => true | _ => false end.

(** The encoder output, its padding mask and the bag a layer call carries. *)
Definition layer_call_encoder (c : Call)
  : option (option Tensor * option Tensor) :=
  match c with
  | Call_layer _ _ _ _ enc epm _ => Some (enc, epm)
  | _ => None
  end.

Definition layer_call_bag (c : Call) : option (option Bag) :=
  match c with Call_layer _ _ _ _ _ _ b => Some b | _ => None end.

(** Layer call [c2] takes over from layer call [c1]: its hidden state is
    what the layer of [c1] returned, its bag is the bag as that layer left
    it, and the masks and the encoder output are the same. *)
Definition follows (self : StandardTransformerDecoder Tensor Bag)
    (c1 c2 : Call) : Prop :=
  match c1, c2 with
  | Call_layer i x m pm enc epm b, Call_layer j x' m' pm' enc' epm' b' =>
      exists l,
        nth_error (modules (layers self)) i = Some l
        /\ x' = layer_forward l x m pm enc epm b
        /\ b' = option_map (layer_update l x m pm enc epm) b
        /\ m' = m /\ pm' = pm /\ enc' = enc /\ epm' = epm
  | _, _ => False
  end.

End ProgramOrder.

(** * A small executable instance

    Integer-valued, unbatched tensors with the time axis first, and
    collaborators simple enough to run by hand.  The instance shows that the
    contracts above can be met and lets the decoder be evaluated on concrete
    inputs. *)

Module Toy.

#[local] Set Warnings "-inexact-float".

(** The shape is the number of rows followed by [t_tail]; a row holds the
    entries of one time position.  A sequence of token indices has an empty
    tail and one entry per row. *)
Record tensor := {
  t_dtype : DataType;
  t_tail : list Z;
  t_rows : list (list Z)
}.

Definition map_rows (dt : DataType) (tail : list Z)
    (f : list Z -> list Z) (x : tensor) : tensor :=
  {| t_dtype := dt; t_tail := tail; t_rows := map f (t_rows x) |}.

Definition each (f : Z -> Z) (x : tensor) : tensor :=
  map_rows (t_dtype x) (t_tail x) (map f) x.

Definition sum (row : list Z) : Z := fold_right Z.add 0 row.

(** The integer part of a float; 0 for what is not finite. *)
Definition Z_of_float (c : float) : Z :=
  match Prim2SF c with
  | S754_finite s m e =>
      let v := Z.shiftl (Z.pos m) e in if s then - v else v
  | _ => 0
  end.

(** The entry standing for minus infinity in a float mask. *)
Definition neg_inf : Z := -1.

(** A projection maps every row of width [inp_dim] to [out_dim] entries; a
    tensor of another width is left alone. *)
Definition project (p : InternalDimProjection) (x : tensor) : tensor :=
  match rev (t_tail x) with
  | w :: lead =>
      if w =? inp_dim p then
        map_rows (t_dtype x) (rev lead ++ [out_dim p])
          (fun row => map (fun j => sum row + Z.of_nat j)
                          (seq 0 (Z.to_nat (out_dim p))))
          x
      else x
  | [] => x
  end.

#[export] Instance torch : Torch tensor Z := {
  Tensor_shape x := Z.of_nat (List.length (t_rows x)) :: t_tail x;
  Tensor_dtype := t_dtype;
  Tensor_eq x p :=
    map_rows dtype_bool (t_tail x)
             (map (fun v => if v =? p then 1 else 0)) x;
  Tensor_mul x c := each (fun v => v * Z_of_float c) x;
  dropout_train x p keep := each (fun v => v * keep) x;
  LayerNorm_forward ln x :=
    map_rows (t_dtype x) (t_tail x)
             (fun row => map (fun v => v + v - hd 0 row) row) x;
  Projection_forward := project;
  to_float_mask x dt :=
    map_rows dt (t_tail x) (map (fun v => if v =? 0 then 0 else neg_inf)) x
}.

#[export] Instance time : TimeAxis tensor := {
  tlen x := List.length (t_rows x);
  prefix n x :=
    {| t_dtype := t_dtype x; t_tail := t_tail x;
       t_rows := firstn n (t_rows x) |};
  at_step t x :=
    {| t_dtype := t_dtype x; t_tail := t_tail x;
       t_rows := firstn 1 (skipn t (t_rows x)) |}
}.

(** The bag: the step counter and, per layer, the keys the layer has seen,
    each a row with its padding flag. *)
Record bag := {
  step : nat;
  caches : nat -> list (list Z * Z)
}.

#[export] Instance state_bag : StateBag bag := {
  new_bag := {| step := 0; caches := fun _ => [] |};
  increment_step b := {| step := S (step b); caches := caches b |};
  bag_step := step
}.

(** *** Collaborators *)

(** Token [k] embeds as [10k, 10k+1, ...]. *)
Definition embedding (dim : Z) (pad : option Z) : Embedding tensor :=
  {| embedding_dim := dim;
     padding_idx := pad;
     weight_dtype := float32;
     embed_forward x :=
       map_rows (dtype_float float32) (t_tail x ++ [dim])
         (flat_map (fun k => map (fun j => 10 * k + Z.of_nat j)
                                 (seq 0 (Z.to_nat dim))))
         x |}.

(** [number_from start rows]: add its position to every entry of a row,
    counting from [start]. *)
Fixpoint number_from (start : nat) (rows : list (list Z))
  : list (list Z) :=
  match rows with
  | [] => []
  | row :: rest =>
      map (fun v => v + Z.of_nat start) row :: number_from (S start) rest
  end.

Definition positional (dim : Z) : PositionalEmbedding tensor bag :=
  {| pos_embedding_dim := dim;
     pos_forward x state_bag :=
       {| t_dtype := t_dtype x; t_tail := t_tail x;
          t_rows :=
            number_from (match state_bag with
                         | Some b => step b
                         | None => O
                         end)
                        (t_rows x) |} |}.

(** Row [i] of the causal mask over [n] positions: 0 up to the diagonal,
    minus infinity after it. *)
Definition causal_row (n i : nat) : list Z :=
  repeat 0 (S i) ++ repeat neg_inf (n - S i).

Definition causal : AttentionMaskGenerator tensor :=
  {| mask_forward x :=
       let n := List.length (t_rows x) in
       {| t_dtype := dtype_float float32;
          t_tail := [Z.of_nat n];
          t_rows := map (causal_row n) (seq 0 n) |} |}.

(** The padding flag of position [j]: 0 when there is no padding mask. *)
Definition flag (pm : option tensor) (j : nat) : Z :=
  match pm with
  | Some m => hd 0 (nth j (t_rows m) [])
  | None => 0
  end.

(** The keys of the rows at positions [start, start + 1, ...]. *)
Fixpoint keys_from (start : nat) (rows : list (list Z))
    (pm : option tensor) : list (list Z * Z) :=
  match rows with
  | [] => []
  | row :: rest => (row, flag pm start) :: keys_from (S start) rest pm
  end.

(** What a query gathers from the keys: the entries of every key that the
    mask row admits and that is not padding.  A mask row that is too short
    admits the rest. *)
Fixpoint attend (mask_row : list Z) (keys : list (list Z * Z)) : Z :=
  match keys with
  | [] => 0
  | (row, f) :: rest =>
      (if (hd 0 mask_row =? 0) && (f =? 0) then sum row else 0)
      + attend (tl mask_row) rest
  end.

(** The queries [rows], from position [i] on, against [past] (always
    admitted) followed by [keys]. *)
Fixpoint queries (mask : option tensor) (past keys : list (list Z * Z))
    (enc : Z) (i : nat) (rows : list (list Z)) : list (list Z) :=
  match rows with
  | [] => []
  | row :: rest =>
      let mask_row :=
        match mask with
        | Some m => nth i (t_rows m) []
        | None => []
        end in
      map (fun v => v + attend [] past + attend mask_row keys + enc) row
      :: queries mask past keys enc (S i) rest
  end.

Definition enc_term (enc_out : option tensor) : Z :=
  match enc_out with
  | Some e => sum (hd [] (t_rows e))
  | None => 0
  end.

(** Layer [id]: every position adds up what it may attend to. *)
Definition layer (id : nat) (dim : Z) : TransformerDecoderLayer tensor bag :=
  {| layer_model_dim := dim;
     layer_forward x mask pm enc_out enc_padding_mask state_bag :=
       let past := match state_bag with
                   | Some b => caches b id
                   | None => []
                   end in
       {| t_dtype := t_dtype x; t_tail := t_tail x;
          t_rows := queries mask past (keys_from 0 (t_rows x) pm)
                            (enc_term enc_out) 0 (t_rows x) |};
     layer_update x mask pm enc_out enc_padding_mask b :=
       {| step := step b;
          caches := fun k =>
            if Nat.eqb k id
            then caches b k ++ keys_from 0 (t_rows x) pm
            else caches b k |} |}.

(** Layer [idx] has cached the positions of [x] under the padding mask
    [pm]. *)
Definition cached (idx : nat) (b : bag) (x : tensor) (pm : option tensor)
  : Prop :=
  caches b idx = keys_from 0 (t_rows x) pm.

(** *** Concrete decoders and inputs *)

Definition tokens (xs : list Z) : tensor :=
  {| t_dtype := dtype_int64; t_tail := []; t_rows := map (fun x => [x]) xs |}.

Definition construct (embedding_dim : Z) (pad : option Z)
    (layers : Py.Iterable (TransformerDecoderLayer tensor bag))
    (no_scale_embed : bool) (norm_order : TransformerNormOrder)
  : Py.Result (StandardTransformerDecoder tensor bag) :=
  __init__ causal (embedding embedding_dim pad)
           (Some (positional embedding_dim)) layers no_scale_embed true
           0.1%float None 0.5%float norm_order 1e-5%float None None.

(** Two layers of width 4 over an embedding of width 4. *)
Definition decoder_4_4 := construct 4 (Some 0)
  (Py.Sequence [layer 0 4; layer 1 4]) false PRE.

(** Two layers of width 8 over an embedding of width 4: both adapters. *)
Definition decoder_4_8 := construct 4 (Some 0)
  (Py.Sequence [layer 0 8; layer 1 8]) false PRE.

(** The same with scaling disabled. *)
Definition decoder_unscaled := construct 4 (Some 0)
  (Py.Sequence [layer 0 4; layer 1 4]) true POST.

(** Layers of widths 4 and 8, handed over as a list and as a generator. *)
Definition mismatched_list := construct 4 (Some 0)
  (Py.Sequence [layer 0 4; layer 1 8]) false POST.

Definition mismatched_generator := construct 4 (Some 0)
  (Py.Iterator [layer 0 4; layer 1 8]) false POST.

Definition no_kwargs : FactoryKwargs := {| device := None; dtype := None |}.

(** What the constructions above return, written out. *)
Definition built (embedding_dim model_dim : Z) (scale : float)
    (layers : list (TransformerDecoderLayer tensor bag))
    (norm_order : TransformerNormOrder)
  : StandardTransformerDecoder tensor bag :=
  {| training := true;
     model_dim := model_dim;
     embed := embedding embedding_dim (Some 0);
     embed_scale := scale;
     pos_embed := Some (positional embedding_dim);
     embed_norm := Some {| normalized_shape := embedding_dim;
                           eps := 1e-5%float; ln_kwargs := no_kwargs |};
     embed_dropout_p := 0.1%float;
     inp_dim_proj :=
       if embedding_dim =? model_dim then None
       else Some (InternalDimProjection_new embedding_dim model_dim
                                            no_kwargs);
     self_attn_mask_gen := causal;
     layers := {| modules := layers; drop_p := 0.5%float |};
     layer_norm :=
       match norm_order with
       | POST => None
       | _ => Some {| normalized_shape := model_dim;
                      eps := 1e-5%float; ln_kwargs := no_kwargs |}
       end;
     out_dim_proj :=
       if embedding_dim =? model_dim then None
       else Some (InternalDimProjection_new model_dim embedding_dim
                                            no_kwargs) |}.

Definition d44 := built 4 4 2%float [layer 0 4; layer 1 4] PRE.
Definition d48 := built 4 8 2%float [layer 0 8; layer 1 8] PRE.
Definition d44_unscaled := built 4 4 1%float [layer 0 4; layer 1 4] POST.
Definition d_mismatched := built 4 4 2%float [layer 0 4; layer 1 8] POST.

Definition quiet : Noise Z := {| dropout_noise := 1; layer_draws := [] |}.

(** Entry [i] of a sequence of token indices, and whether a mask masks
    position [i]. *)
Definition elem (x : tensor) (i : nat) : option Z :=
  match nth_error (t_rows x) i with
  | Some (v :: _) => Some v
  | _ => None
  end.

Definition marked (m : tensor) (i : nat) : Prop :=
  exists v rest, nth_error (t_rows m) i = Some (v :: rest) /\ v <> 0.

End Toy.

(** * Proofs *)

(** ** The methods compute their stages *)

Section Runs.

Context {Tensor Bag Rand : Type} `{Torch Tensor Rand}.

Local Abbreviation Decoder := (StandardTransformerDecoder Tensor Bag).
Local Abbreviation Layer := (TransformerDecoderLayer Tensor Bag).
Local Abbreviation Call := (Call Tensor Bag).
Local Abbreviation World := (World Tensor Bag Rand).
Local Abbreviation Noise := (Noise Rand).

Lemma logged_nil (w : World) : logged w [] = w.
Proof. destruct w; unfold logged; simpl; now rewrite app_nil_r. Qed.

Lemma logged_logged (w : World) (cs ds : list Call) :
  logged (logged w cs) ds = logged w (cs ++ ds).
Proof. unfold logged; simpl; now rewrite app_assoc. Qed.

Ltac run_step :=
  unfold bind, ret, get_self, get_state_bag, get_noise, call_eq,
    call_to_float_mask, call_embed, call_mul, call_pos_embed,
    call_embed_norm, call_dropout, call_inp_dim_proj, call_out_dim_proj,
    call_mask_gen, call_layer_norm, iter_layers, log, logged;
  simpl.

Ltac trace_eq :=
  repeat (progress (repeat rewrite <- app_assoc; simpl));
  repeat rewrite app_nil_r; try reflexivity.

Lemma _get_self_attn_padding_mask_run (seq : Tensor) (w : World) :
  _get_self_attn_padding_mask seq w
  = (padding_mask_value (w_self w) seq,
     logged w (padding_mask_calls (w_self w) seq)).
Proof.
  unfold _get_self_attn_padding_mask, padding_mask_value, padding_mask_calls.
  run_step.
  destruct (padding_idx (embed (w_self w))); simpl; trace_eq.
  now destruct w.
Qed.

Lemma _forward_embed_run (seq : Tensor) (w : World) :
  _forward_embed seq w
  = (embed_value (w_self w) (w_state_bag w) (dropout_noise (w_noise w)) seq,
     logged w (embed_calls (w_self w) (w_state_bag w) seq)).
Proof.
  unfold _forward_embed, embed_value, embed_calls, dropped, normed,
    positioned, scaled, scales, drops.
  run_step.
  destruct (PrimFloat.eqb (embed_scale (w_self w)) 1); simpl;
    destruct (pos_embed (w_self w)); simpl;
    destruct (embed_norm (w_self w)); simpl;
    destruct (PrimFloat.ltb 0 (embed_dropout_p (w_self w))); simpl;
    trace_eq.
Qed.

Lemma for_each_layers_run
    (mask pm enc_out enc_padding_mask : option Tensor)
    (ls : list (nat * Layer)) :
  forall (x : Tensor) (w : World),
    for_each ls
      (fun x il => call_layer (fst il) (snd il) x mask pm enc_out
                              enc_padding_mask) x w
    = (layers_value mask pm enc_out enc_padding_mask ls (w_state_bag w) x,
       {| w_self := w_self w;
          w_state_bag :=
            layers_bag mask pm enc_out enc_padding_mask ls (w_state_bag w) x;
          w_noise := w_noise w;
          w_trace :=
            w_trace w
            ++ layers_calls mask pm enc_out enc_padding_mask ls
                            (w_state_bag w) x |}).
Proof.
  induction ls as [|[idx l] ls IH]; intros x w; simpl.
  - unfold ret. destruct w; simpl. now rewrite app_nil_r.
  - unfold bind at 1. unfold call_layer at 1.
    unfold bind, get_state_bag, ret, mutate_state_bag, log.
    simpl. rewrite IH. simpl. now rewrite <- app_assoc.
Qed.

Lemma _forward_decoder_layers_run
    (x : Tensor) (pm enc_out enc_padding_mask : option Tensor) (w : World) :
  _forward_decoder_layers x pm enc_out enc_padding_mask w
  = (stack_value (w_self w) (w_noise w) (w_state_bag w) pm enc_out
                 enc_padding_mask x,
     {| w_self := w_self w;
        w_state_bag :=
          stack_bag (w_self w) (w_noise w) (w_state_bag w) pm enc_out
                    enc_padding_mask x;
        w_noise := w_noise w;
        w_trace :=
          w_trace w
          ++ stack_calls (w_self w) (w_noise w) (w_state_bag w) pm enc_out
                         enc_padding_mask x |}).
Proof.
  unfold _forward_decoder_layers, stack_value, stack_bag, stack_calls,
    self_attn_mask_value.
  unfold bind at 1. unfold get_self at 1.
  unfold bind at 1. unfold get_state_bag at 1.
  unfold bind at 1.
  destruct (training (w_self w) || is_None (w_state_bag w)) eqn:E.
  - run_step. rewrite for_each_layers_run. simpl.
    destruct (layer_norm (w_self w)); simpl;
      repeat rewrite <- app_assoc; simpl; try rewrite app_nil_r;
      reflexivity.
  - run_step. rewrite for_each_layers_run. simpl.
    destruct (layer_norm (w_self w)); simpl;
      repeat rewrite <- app_assoc; simpl; try rewrite app_nil_r;
      reflexivity.
Qed.

Lemma forward_run (seq : Tensor) (enc_out enc_padding_mask : option Tensor)
    (w : World) :
  forward seq enc_out enc_padding_mask w
  = (forward_value (w_self w) (w_noise w) seq enc_out enc_padding_mask
                   (w_state_bag w),
     {| w_self := w_self w;
        w_state_bag :=
          stack_bag (w_self w) (w_noise w) (w_state_bag w)
                    (padding_mask_value (w_self w) seq) enc_out
                    enc_padding_mask
                    (stack_input (w_self w) (w_noise w) (w_state_bag w) seq);
        w_noise := w_noise w;
        w_trace :=
          w_trace w
          ++ forward_calls (w_self w) (w_noise w) seq enc_out
                           enc_padding_mask (w_state_bag w) |}).
Proof.
  unfold forward, forward_value, forward_calls, stack_input, inp_projected,
    out_projected.
  unfold bind at 1. rewrite _get_self_attn_padding_mask_run.
  unfold bind at 1. rewrite _forward_embed_run.
  unfold bind at 1. unfold get_self at 1. simpl.
  destruct (inp_dim_proj (w_self w)) as [pi|]; simpl.
  - unfold bind at 1. unfold call_inp_dim_proj, bind at 1.
    unfold log at 1. unfold ret at 1. unfold bind at 1.
    rewrite _forward_decoder_layers_run. simpl.
    destruct (out_dim_proj (w_self w)) as [po|]; simpl.
    + unfold bind, call_out_dim_proj, bind, ret, log. simpl. trace_eq.
    + unfold bind, ret. simpl. trace_eq.
  - unfold bind at 1. unfold ret at 1. unfold bind at 1.
    rewrite _forward_decoder_layers_run. simpl.
    destruct (out_dim_proj (w_self w)) as [po|]; simpl.
    + unfold bind, call_out_dim_proj, bind, ret, log. simpl. trace_eq.
    + unfold bind, ret. simpl. trace_eq.
Qed.

Lemma run_forward_eq (self : Decoder) (noise : Noise) (seq : Tensor)
    (enc_out enc_padding_mask : option Tensor) (state_bag : option Bag) :
  run_forward self noise seq enc_out enc_padding_mask state_bag
  = (forward_value self noise seq enc_out enc_padding_mask state_bag,
     {| w_self := self;
        w_state_bag :=
          stack_bag self noise state_bag (padding_mask_value self seq)
                    enc_out enc_padding_mask
                    (stack_input self noise state_bag seq);
        w_noise := noise;
        w_trace :=
          forward_calls self noise seq enc_out enc_padding_mask state_bag |}).
Proof. unfold run_forward. now rewrite forward_run. Qed.

End Runs.

(** ** Facts on the prelude *)

Lemma enumerate_from_nth {A} (xs : list A) :
  forall (start i : nat) (x : A),
    In (i, x) (Py.enumerate_from start xs) ->
    (start <= i)%nat /\ nth_error xs (i - start) = Some x.
Proof.
  induction xs as [|y ys IH]; intros start i x Hin; simpl in Hin.
  - contradiction.
  - destruct Hin as [Heq | Hin].
    + inversion Heq; subst. split; [lia|]. now rewrite Nat.sub_diag.
    + apply IH in Hin. destruct Hin as [Hle Hnth]. split; [lia|].
      replace (i - start)%nat with (S (i - S start)) by lia. exact Hnth.
Qed.

Lemma enumerate_nth {A} (xs : list A) (i : nat) (x : A) :
  In (i, x) (Py.enumerate xs) -> nth_error xs i = Some x.
Proof.
  intros Hin. apply enumerate_from_nth in Hin.
  now rewrite Nat.sub_0_r in Hin.
Qed.

Lemma enumerate_from_fst {A} (xs : list A) :
  forall start : nat,
    map fst (Py.enumerate_from start xs) = seq start (List.length xs).
Proof.
  induction xs as [|y ys IH]; intros start; simpl; [reflexivity|].
  now rewrite IH.
Qed.

Lemma enumerate_fst {A} (xs : list A) :
  map fst (Py.enumerate xs) = seq 0 (List.length xs).
Proof. apply enumerate_from_fst. Qed.

Lemma enumerate_from_snd {A} (xs : list A) :
  forall start : nat, map snd (Py.enumerate_from start xs) = xs.
Proof.
  induction xs as [|y ys IH]; intros start; simpl; [reflexivity|].
  now rewrite IH.
Qed.

Lemma ModuleList_iter_eval {Tensor Bag : Type}
    (ml : ModuleList Tensor Bag) (draws : list float) :
  ModuleList_iter ml false draws = Py.enumerate (modules ml).
Proof. reflexivity. Qed.

Lemma F_dropout_eval {Tensor Rand : Type} `{Torch Tensor Rand}
    (x : Tensor) (p : float) (r : Rand) :
  F_dropout x p false r = x.
Proof. reflexivity. Qed.

(** ** Incremental decoding agrees with the full pass *)

Section IncrementalProof.

Context {Tensor Bag Rand : Type} `{Torch Tensor Rand} `{TimeAxis Tensor}
  `{StateBag Bag}.

Local Abbreviation Decoder := (StandardTransformerDecoder Tensor Bag).
Local Abbreviation Layer := (TransformerDecoderLayer Tensor Bag).
Local Abbreviation Noise := (Noise Rand).

Variable self : Decoder.
Variables enc_out enc_padding_mask : option Tensor.
Variable cached : nat -> Bag -> Tensor -> option Tensor -> Prop.

Hypothesis contract :
  IncrementalContract self enc_out enc_padding_mask cached.
Hypothesis inference : training self = false.

Local Abbreviation gen := (self_attn_mask_gen self).

Lemma stack_input_inference (noise : Noise) (state_bag : option Bag)
    (seq : Tensor) :
  stack_input self noise state_bag seq = stack_input_eval self state_bag seq.
Proof.
  unfold stack_input, stack_input_eval, embed_value, dropped.
  rewrite inference. destruct (drops self); reflexivity.
Qed.

Lemma stack_input_prefix (n : nat) (seq : Tensor) :
  prefix n (stack_input_eval self None seq) = stack_input_eval self None (prefix n seq).
Proof.
  unfold stack_input_eval, inp_projected, normed, positioned, scaled.
  destruct (inp_dim_proj self) as [p|];
    [rewrite (pw_prefix (projection_position_wise (ic_torch contract) p))|];
    (destruct (embed_norm self) as [ln|];
     [rewrite (pw_prefix (layer_norm_position_wise (ic_torch contract) ln))|]);
    (destruct (pos_embed self) as [pe|] eqn:Epe;
     [rewrite (pos_prefix (ic_pos contract Epe))|]);
    (destruct (scales self);
     [rewrite (pw_prefix (mul_position_wise (ic_torch contract) _))|]);
    now rewrite (pw_prefix (ic_embed contract)).
Qed.

Lemma stack_input_tlen (seq : Tensor) :
  tlen (stack_input_eval self None seq) = tlen seq.
Proof.
  unfold stack_input_eval, inp_projected, normed, positioned, scaled.
  destruct (inp_dim_proj self) as [p|];
    [rewrite (pw_tlen (projection_position_wise (ic_torch contract) p))|];
    (destruct (embed_norm self) as [ln|];
     [rewrite (pw_tlen (layer_norm_position_wise (ic_torch contract) ln))|]);
    (destruct (pos_embed self) as [pe|] eqn:Epe;
     [rewrite (pos_tlen (ic_pos contract Epe))|]);
    (destruct (scales self);
     [rewrite (pw_tlen (mul_position_wise (ic_torch contract) _))|]);
    now rewrite (pw_tlen (ic_embed contract)).
Qed.

Lemma stack_input_step (t : nat) (bag : Bag) (seq : Tensor) :
  bag_step bag = t ->
  stack_input_eval self (Some bag) (at_step t seq)
  = at_step t (stack_input_eval self None seq).
Proof.
  intros Hstep.
  unfold stack_input_eval, inp_projected, normed, positioned, scaled.
  destruct (inp_dim_proj self) as [p|];
    [rewrite (pw_at_step (projection_position_wise (ic_torch contract) p))|];
    (destruct (embed_norm self) as [ln|];
     [rewrite (pw_at_step
                 (layer_norm_position_wise (ic_torch contract) ln))|]);
    (destruct (pos_embed self) as [pe|] eqn:Epe;
     [rewrite <- (pos_step (ic_pos contract Epe) _ _ Hstep)|]);
    (destruct (scales self);
     [rewrite (pw_at_step (mul_position_wise (ic_torch contract) _))|]);
    now rewrite (pw_at_step (ic_embed contract)).
Qed.

Lemma padding_mask_prefix (n : nat) (seq : Tensor) :
  option_map (prefix n) (padding_mask_value self seq)
  = padding_mask_value self (prefix n seq).
Proof.
  unfold padding_mask_value.
  destruct (padding_idx (embed self)) as [p|]; simpl; [|reflexivity].
  rewrite (pw_prefix (to_float_mask_position_wise (ic_torch contract) _)).
  now rewrite (pw_prefix (eq_position_wise (ic_torch contract) p)).
Qed.

Lemma padding_mask_step (t : nat) (seq : Tensor) :
  padding_mask_value self (at_step t seq)
  = option_map (at_step t) (padding_mask_value self seq).
Proof.
  unfold padding_mask_value.
  destruct (padding_idx (embed self)) as [p|]; simpl; [|reflexivity].
  rewrite (pw_at_step (to_float_mask_position_wise (ic_torch contract) _)).
  now rewrite (pw_at_step (eq_position_wise (ic_torch contract) p)).
Qed.

Local Abbreviation in_stack ls :=
  (forall (idx : nat) (l : Layer),
     In (idx, l) ls ->
     LayerContract gen enc_out enc_padding_mask cached idx l).

Local Abbreviation full_layers x0 pm ls x :=
  (layers_value (Some (mask_forward gen x0)) pm enc_out enc_padding_mask ls
                None x).

Local Abbreviation synced_here ls bag n x x0 pm :=
  (synced gen enc_out enc_padding_mask cached ls bag n x x0 pm).

Lemma stack_contract (idx : nat) (l : Layer) :
  In (idx, l) (Py.enumerate (modules (layers self))) ->
  LayerContract gen enc_out enc_padding_mask cached idx l.
Proof.
  intros Hin. apply (ic_layers contract). now apply enumerate_nth.
Qed.

Lemma full_layers_tlen (ls : list (nat * Layer)) :
  in_stack ls ->
  forall (x x0 : Tensor) (pm : option Tensor),
    tlen (full_layers x0 pm ls x) = tlen x.
Proof.
  induction ls as [|[idx l] ls IH]; intros Hls x x0 pm; simpl;
    [reflexivity|].
  rewrite IH by (intros; apply Hls; now right).
  apply (layer_tlen (Hls idx l (or_introl eq_refl))).
Qed.

Lemma full_layers_prefix (ls : list (nat * Layer)) :
  in_stack ls ->
  forall (n : nat) (x x0 : Tensor) (pm : option Tensor),
    tlen x0 = tlen x ->
    prefix n (full_layers x0 pm ls x)
    = full_layers (prefix n x0) (option_map (prefix n) pm) ls (prefix n x).
Proof.
  induction ls as [|[idx l] ls IH]; intros Hls n x x0 pm Hlen; simpl;
    [reflexivity|].
  pose proof (Hls idx l (or_introl eq_refl)) as Hl.
  rewrite IH.
  - now rewrite (layer_causal Hl).
  - intros; apply Hls; now right.
  - now rewrite (layer_tlen Hl).
Qed.

(** A bag that is up to date for [x] is up to date for any input that has
    the same first [n] positions. *)
Lemma synced_same_prefix (ls : list (nat * Layer)) :
  in_stack ls ->
  forall (bag : Bag) (n : nat) (x x0 x' x0' : Tensor)
         (pm pm' : option Tensor),
    tlen x0 = tlen x -> tlen x0' = tlen x' ->
    prefix n x = prefix n x' ->
    prefix n x0 = prefix n x0' ->
    option_map (prefix n) pm = option_map (prefix n) pm' ->
    synced_here ls bag n x x0 pm ->
    synced_here ls bag n x' x0' pm'.
Proof.
  induction ls as [|[idx l] ls IH];
    intros Hls bag n x x0 x' x0' pm pm' Hlen Hlen' Hx Hx0 Hpm Hsync;
    simpl in *; [exact I|].
  pose proof (Hls idx l (or_introl eq_refl)) as Hl.
  destruct Hsync as [Hc Hrest]. split.
  - now rewrite <- Hx, <- Hpm.
  - apply (IH (fun i l' Hin => Hls i l' (or_intror Hin)) bag n
               (layer_forward l x (Some (mask_forward gen x0)) pm enc_out
                              enc_padding_mask None) x0 _ x0' pm pm').
    + now rewrite (layer_tlen Hl).
    + now rewrite (layer_tlen Hl).
    + rewrite (layer_causal Hl) by assumption.
      rewrite (layer_causal Hl) by assumption.
      now rewrite Hx, Hx0, Hpm.
    + exact Hx0.
    + exact Hpm.
    + exact Hrest.
Qed.

Lemma synced_frame (ls : list (nat * Layer)) :
  forall (idx : nat) (l : Layer),
    LayerContract gen enc_out enc_padding_mask cached idx l ->
    ~ In idx (map fst ls) ->
    forall (bag : Bag) (n : nat) (x x0 : Tensor) (pm : option Tensor)
           (u : Tensor) (m pmu : option Tensor),
      synced_here ls bag n x x0 pm ->
      synced_here ls (layer_update l u m pmu enc_out enc_padding_mask bag)
                  n x x0 pm.
Proof.
  induction ls as [|[jdx l'] ls IH];
    intros idx l Hl Hnotin bag n x x0 pm u m pmu Hsync; simpl in *;
    [exact I|].
  destruct Hsync as [Hc Hrest]. split.
  - apply (layer_frame Hl); [|exact Hc]. intros E. apply Hnotin. now left.
  - apply (IH idx l Hl); [|exact Hrest]. intros E. apply Hnotin. now right.
Qed.

Lemma synced_increment (ls : list (nat * Layer)) :
  forall (bag : Bag) (n : nat) (x x0 : Tensor) (pm : option Tensor),
    synced_here ls bag n x x0 pm ->
    synced_here ls (increment_step bag) n x x0 pm.
Proof.
  induction ls as [|[idx l] ls IH]; intros bag n x x0 pm Hsync; simpl in *;
    [exact I|].
  destruct Hsync as [Hc Hrest]. split; [|now apply IH].
  now apply (ic_increment contract).
Qed.

Lemma synced_new (ls : list (nat * Layer)) :
  forall (x x0 : Tensor) (pm : option Tensor),
    synced_here ls new_bag 0 x x0 pm.
Proof.
  induction ls as [|[idx l] ls IH]; intros x x0 pm; simpl; [exact I|].
  split; [apply (ic_new contract) | apply IH].
Qed.

Lemma cached_after_layers (ls : list (nat * Layer)) :
  in_stack ls ->
  forall (idx : nat) (m pmu : option Tensor) (bag bag' : Bag) (u y : Tensor)
         (pmy : option Tensor),
    ~ In idx (map fst ls) ->
    cached idx bag y pmy ->
    layers_bag m pmu enc_out enc_padding_mask ls (Some bag) u = Some bag' ->
    cached idx bag' y pmy /\ bag_step bag' = bag_step bag.
Proof.
  induction ls as [|[jdx l] ls IH];
    intros Hls idx m pmu bag bag' u y pmy Hnotin Hc Hbag; simpl in *.
  - inversion Hbag; subst. now split.
  - pose proof (Hls jdx l (or_introl eq_refl)) as Hl.
    eapply IH in Hbag.
    + destruct Hbag as [Hc' Hstep]. split; [exact Hc'|].
      now rewrite Hstep, (layer_keeps_step Hl).
    + intros; apply Hls; now right.
    + intros E. apply Hnotin. now right.
    + apply (layer_frame Hl); [|exact Hc]. intros E. apply Hnotin.
      now left.
Qed.

(** One incremental step through the stack returns position [t] of the
    full pass and leaves the bag up to date for [t + 1] positions. *)
Lemma layers_step (ls : list (nat * Layer)) :
  in_stack ls ->
  NoDup (map fst ls) ->
  forall (t : nat) (x x0 : Tensor) (pm : option Tensor) (bag : Bag),
    tlen x0 = tlen x ->
    (t < tlen x)%nat ->
    synced_here ls bag t x x0 pm ->
    layers_value None (option_map (at_step t) pm) enc_out enc_padding_mask
                 ls (Some bag) (at_step t x)
    = at_step t (full_layers x0 pm ls x)
    /\ exists bag' : Bag,
         layers_bag None (option_map (at_step t) pm) enc_out
                    enc_padding_mask ls (Some bag) (at_step t x)
         = Some bag'
         /\ synced_here ls bag' (S t) x x0 pm
         /\ bag_step bag' = bag_step bag.
Proof.
  induction ls as [|[idx l] ls IH];
    intros Hls Hnodup t x x0 pm bag Hlen Ht Hsync; simpl in *.
  - split; [reflexivity|]. exists bag. now repeat split.
  - pose proof (Hls idx l (or_introl eq_refl)) as Hl.
    assert (Htail : in_stack ls) by (intros; apply Hls; now right).
    inversion Hnodup as [|? ? Hnotin Hnodup']; subst.
    destruct Hsync as [Hc Hrest].
    destruct (layer_step Hl x x0 pm bag Hlen Ht Hc) as [Hval Hc'].
    rewrite Hval.
    set (x' := layer_forward l x (Some (mask_forward gen x0)) pm enc_out
                             enc_padding_mask None) in *.
    set (bag1 := layer_update l (at_step t x) None
                              (option_map (at_step t) pm) enc_out
                              enc_padding_mask bag) in *.
    destruct (IH Htail Hnodup' t x' x0 pm bag1) as [Hv [bag' [Hb [Hs Hst]]]].
    + unfold x'. now rewrite (layer_tlen Hl).
    + unfold x'. now rewrite (layer_tlen Hl).
    + unfold bag1. eapply synced_frame; eassumption.
    + split; [exact Hv|]. exists bag'. split; [exact Hb|].
      pose proof (@cached_after_layers ls Htail idx _ _ _ _ _ _ _ Hnotin
                                       Hc' Hb) as [Hc'' _].
      repeat split; try assumption.
      rewrite Hst. unfold bag1. apply (layer_keeps_step Hl).
Qed.

Local Abbreviation stack := (Py.enumerate (modules (layers self))).

Lemma stack_NoDup : NoDup (map fst stack).
Proof. rewrite enumerate_fst. apply seq_NoDup. Qed.

(** What follows the layers: the stack normalizer and the output adapter. *)
Definition finish (x : Tensor) : Tensor :=
  out_projected self
    match layer_norm self with
    | Some ln => LayerNorm_forward ln x
    | None => x
    end.

Lemma finish_at_step (t : nat) (x : Tensor) :
  finish (at_step t x) = at_step t (finish x).
Proof.
  unfold finish, out_projected.
  destruct (out_dim_proj self) as [p|];
    [rewrite (pw_at_step (projection_position_wise (ic_torch contract) p))|];
    (destruct (layer_norm self) as [ln|];
     [rewrite (pw_at_step
                 (layer_norm_position_wise (ic_torch contract) ln))|]);
    reflexivity.
Qed.

Lemma forward_value_full (noise : Noise) (seq : Tensor) :
  forward_value self noise seq enc_out enc_padding_mask None
  = finish (full_layers (stack_input_eval self None seq)
                        (padding_mask_value self seq) stack
                        (stack_input_eval self None seq)).
Proof.
  unfold forward_value, stack_value, finish, self_attn_mask_value.
  rewrite stack_input_inference, inference. reflexivity.
Qed.

Lemma forward_value_step (noise : Noise) (seq : Tensor) (bag : Bag) :
  forward_value self noise seq enc_out enc_padding_mask (Some bag)
  = finish (layers_value None (padding_mask_value self seq) enc_out
                         enc_padding_mask stack (Some bag)
                         (stack_input_eval self (Some bag) seq)).
Proof.
  unfold forward_value, stack_value, finish, self_attn_mask_value.
  rewrite stack_input_inference, inference. reflexivity.
Qed.

Lemma stack_bag_step (noise : Noise) (seq : Tensor) (bag : Bag) :
  stack_bag self noise (Some bag) (padding_mask_value self seq) enc_out
            enc_padding_mask (stack_input self noise (Some bag) seq)
  = layers_bag None (padding_mask_value self seq) enc_out enc_padding_mask
               stack (Some bag) (stack_input_eval self (Some bag) seq).
Proof.
  unfold stack_bag, self_attn_mask_value.
  rewrite stack_input_inference, inference. reflexivity.
Qed.

(** The invariant of step-by-step decoding. *)
Lemma decode_steps_invariant (noises : nat -> Noise) (noise : Noise)
    (seq : Tensor) (n : nat) :
  (n <= tlen seq)%nat ->
  exists (outs : list Tensor) (bag : Bag),
    decode_steps self noises seq enc_out enc_padding_mask n
    = (outs, Some bag)
    /\ bag_step bag = n
    /\ List.length outs = n
    /\ synced_here stack bag n
                   (stack_input_eval self None (prefix n seq))
                   (stack_input_eval self None (prefix n seq))
                   (padding_mask_value self (prefix n seq))
    /\ forall t : nat,
         (t < n)%nat ->
         nth_error outs t
         = Some (at_step t (full_pass self noise seq enc_out
                                      enc_padding_mask (S t))).
Proof.
  pose proof (ic_time contract) as Htime.
  induction n as [|t IH]; intros Hn.
  - exists [], new_bag. simpl. repeat split.
    + apply (new_bag_step (ic_bag contract)).
    + apply synced_new.
    + intros t Ht. lia.
  - destruct IH as [outs [bag [Hrun [Hstep [Hlen [Hsync Houts]]]]]];
      [lia|].
    simpl. rewrite Hrun. rewrite run_forward_eq.
    unfold output, state_bag_after. simpl.
    rewrite forward_value_step, stack_bag_step.
    set (seq1 := prefix (S t) seq).
    set (x := stack_input_eval self None seq1).
    set (pm := padding_mask_value self seq1).
    assert (Hslice : at_step t seq = at_step t seq1).
    { unfold seq1. symmetry. apply (at_step_prefix Htime). lia. }
    assert (Hin : stack_input_eval self (Some bag) (at_step t seq)
                  = at_step t x).
    { rewrite Hslice. now apply stack_input_step. }
    assert (Hpm : padding_mask_value self (at_step t seq)
                  = option_map (at_step t) pm).
    { rewrite Hslice. apply padding_mask_step. }
    assert (Hxlen : (t < tlen x)%nat).
    { unfold x, seq1. rewrite stack_input_tlen, (tlen_prefix Htime). lia. }
    assert (Hsync1 : synced_here stack bag t x x pm).
    { eapply synced_same_prefix; [| | | | | |exact Hsync];
        try reflexivity.
      - intros idx l. apply stack_contract.
      - unfold x, seq1. rewrite !stack_input_prefix.
        rewrite !(prefix_prefix Htime) by lia. reflexivity.
      - unfold x, seq1. rewrite !stack_input_prefix.
        rewrite !(prefix_prefix Htime) by lia. reflexivity.
      - unfold pm, seq1. rewrite !padding_mask_prefix.
        rewrite !(prefix_prefix Htime) by lia. reflexivity. }
    rewrite Hin, Hpm.
    destruct (@layers_step stack stack_contract stack_NoDup t x x pm bag
                           eq_refl Hxlen Hsync1)
      as [Hval [bag' [Hbag [Hsync' Hstep']]]].
    rewrite Hval, Hbag. simpl.
    exists (outs ++ [finish (at_step t (full_layers x pm stack x))]),
      (increment_step bag').
    repeat split.
    + rewrite (increment_step_step (ic_bag contract)). congruence.
    + rewrite length_app. simpl. lia.
    + now apply synced_increment.
    + intros t' Ht'. destruct (Nat.eq_dec t' t) as [->|Hne].
      * rewrite nth_error_app2 by lia. rewrite Hlen, Nat.sub_diag. simpl.
        unfold full_pass. rewrite run_forward_eq. unfold output. simpl.
        rewrite forward_value_full, finish_at_step. reflexivity.
      * rewrite nth_error_app1 by lia. apply Houts. lia.
Qed.

End IncrementalProof.

(** ** Reading the trace of a call *)

Section Traces.

Context {Tensor Bag Rand : Type} `{Torch Tensor Rand}.

Local Abbreviation Decoder := (StandardTransformerDecoder Tensor Bag).
Local Abbreviation Layer := (TransformerDecoderLayer Tensor Bag).
Local Abbreviation Call := (Call Tensor Bag).
Local Abbreviation Noise := (Noise Rand).

(** The calls of the stack, split around the layer calls. *)
Lemma layers_calls_all_layer_calls
    (mask pm enc_out enc_padding_mask : option Tensor)
    (ls : list (nat * Layer)) :
  forall (bag : option Bag) (x : Tensor) (c : Call),
    In c (layers_calls mask pm enc_out enc_padding_mask ls bag x) ->
    is_layer_call c = true
    /\ layer_call_mask c = Some mask
    /\ layer_call_padding_mask c = Some pm.
Proof.
  induction ls as [|[idx l] ls IH]; intros bag x c Hin; simpl in Hin.
  - contradiction.
  - destruct Hin as [<- | Hin]; [now repeat split | eapply IH; eassumption].
Qed.

Lemma layers_calls_indices
    (mask pm enc_out enc_padding_mask : option Tensor)
    (ls : list (nat * Layer)) :
  forall (bag : option Bag) (x : Tensor),
    map layer_call_index
        (layers_calls mask pm enc_out enc_padding_mask ls bag x)
    = map (fun il => Some (fst il)) ls.
Proof.
  induction ls as [|[idx l] ls IH]; intros bag x; simpl; [reflexivity|].
  now rewrite IH.
Qed.

(** Calls that are neither layer calls, nor mask generations, nor
    multiplications, nor projections. *)
Definition plain (c : Call) : bool :=
  negb (is_layer_call c || is_mask_gen_call c || is_mul_call c
        || is_projection_call c).

Lemma padding_mask_calls_plain (self : Decoder) (seq : Tensor) :
  forallb plain (padding_mask_calls self seq) = true.
Proof.
  unfold padding_mask_calls. now destruct (padding_idx (embed self)).
Qed.

Lemma filter_app_nil {A} (f : A -> bool) (xs ys : list A) :
  filter f xs = [] -> filter f (xs ++ ys) = filter f ys.
Proof. intros E. now rewrite filter_app, E. Qed.

Lemma filter_none {A} (f g : A -> bool) (xs : list A) :
  forallb g xs = true ->
  (forall a, g a = true -> f a = false) ->
  filter f xs = [].
Proof.
  intros Hall Hfg. induction xs as [|a xs IH]; simpl in *; [reflexivity|].
  apply andb_prop in Hall. destruct Hall as [Ha Hxs].
  rewrite (Hfg a Ha). now apply IH.
Qed.

Lemma filter_layers_calls (f : Call -> bool)
    (mask pm enc_out enc_padding_mask : option Tensor)
    (ls : list (nat * Layer)) (bag : option Bag) (x : Tensor) :
  (forall c, is_layer_call c = true -> f c = false) ->
  filter f (layers_calls mask pm enc_out enc_padding_mask ls bag x) = [].
Proof.
  intros Hf. apply (filter_none f is_layer_call); [|exact Hf].
  apply forallb_forall. intros c Hin.
  now apply layers_calls_all_layer_calls in Hin.
Qed.

(** The calls of the embedding path. *)
Definition is_embed_path_call (c : Call) : bool :=
  match c with
  | Call_embed _ | Call_mul _ _ | Call_pos_embed _ _ | Call_embed_norm _
  | Call_dropout _ _ _ => true
  | _ => false
  end.

Lemma embed_calls_kinds (self : Decoder) (bag : option Bag) (seq : Tensor) :
  forallb is_embed_path_call (embed_calls self bag seq) = true.
Proof.
  unfold embed_calls.
  destruct (scales self), (pos_embed self), (embed_norm self),
    (drops self); reflexivity.
Qed.

Lemma filter_padding_mask_calls (f : Call -> bool) (self : Decoder)
    (seq : Tensor) :
  (forall c, plain c = true -> f c = false) ->
  filter f (padding_mask_calls self seq) = [].
Proof.
  intros Hf. apply (filter_none f plain); [|exact Hf].
  apply padding_mask_calls_plain.
Qed.

Lemma filter_embed_calls (f : Call -> bool) (self : Decoder)
    (bag : option Bag) (seq : Tensor) :
  (forall c, is_embed_path_call c = true -> f c = false) ->
  filter f (embed_calls self bag seq) = [].
Proof.
  intros Hf. apply (filter_none f is_embed_path_call); [|exact Hf].
  apply embed_calls_kinds.
Qed.

Lemma not_layer_call_mask (c : Call) :
  is_layer_call c = false ->
  layer_call_mask c = None /\ layer_call_padding_mask c = None
  /\ layer_call_index c = None.
Proof. destruct c; simpl; intros E; try discriminate E; now repeat split. Qed.

(** Where the layer calls of a whole forward pass come from. *)
Lemma forward_calls_layer_call (self : Decoder) (noise : Noise)
    (seq : Tensor) (enc_out enc_padding_mask : option Tensor)
    (bag : option Bag) (c : Call) :
  In c (forward_calls self noise seq enc_out enc_padding_mask bag) ->
  is_layer_call c = true ->
  layer_call_mask c
  = Some (self_attn_mask_value self bag (stack_input self noise bag seq))
  /\ layer_call_padding_mask c = Some (padding_mask_value self seq).
Proof.
  unfold forward_calls. intros Hin Hlayer.
  apply in_app_or in Hin. destruct Hin as [Hin | Hin].
  { exfalso. pose proof (padding_mask_calls_plain self seq) as Hall.
    rewrite forallb_forall in Hall. specialize (Hall c Hin).
    unfold plain in Hall. rewrite Hlayer in Hall. discriminate Hall. }
  apply in_app_or in Hin. destruct Hin as [Hin | Hin].
  { exfalso. pose proof (embed_calls_kinds self bag seq) as Hall.
    rewrite forallb_forall in Hall. specialize (Hall c Hin).
    destruct c; discriminate. }
  apply in_app_or in Hin. destruct Hin as [Hin | Hin].
  { exfalso. destruct (inp_dim_proj self); simpl in Hin;
      [destruct Hin as [<- | []]; discriminate | contradiction]. }
  apply in_app_or in Hin. destruct Hin as [Hin | Hin].
  - unfold stack_calls in Hin.
    apply in_app_or in Hin. destruct Hin as [Hin | Hin].
    { exfalso. destruct (training self || is_None bag); simpl in Hin;
        [destruct Hin as [<- | []]; discriminate | contradiction]. }
    apply in_app_or in Hin. destruct Hin as [Hin | Hin].
    + apply layers_calls_all_layer_calls in Hin.
      now destruct Hin as [_ Hin].
    + exfalso. destruct (layer_norm self); simpl in Hin;
        [destruct Hin as [<- | []]; discriminate | contradiction].
  - exfalso. destruct (out_dim_proj self); simpl in Hin;
      [destruct Hin as [<- | []]; discriminate | contradiction].
Qed.

End Traces.

(** ** What a successful construction returns *)

Section Construction.

Context {Tensor Bag : Type}.

Local Abbreviation Decoder := (StandardTransformerDecoder Tensor Bag).
Local Abbreviation Layer := (TransformerDecoderLayer Tensor Bag).

Variable default_gen : AttentionMaskGenerator Tensor.

Variable emb : Embedding Tensor.
Variable pos : option (PositionalEmbedding Tensor Bag).
Variable layer_arg : Py.Iterable Layer.
Variables no_scale_embed norm_embed : bool.
Variable embed_dropout : float.
Variable mask_gen : option (AttentionMaskGenerator Tensor).
Variable layer_drop : float.
Variable norm_order : TransformerNormOrder.
Variable norm_eps : float.
Variable dev : option Device.
Variable dt : option DataType.

Local Abbreviation constructed :=
  (__init__ default_gen emb pos layer_arg no_scale_embed norm_embed
            embed_dropout mask_gen layer_drop norm_order norm_eps dev dt).

Local Abbreviation kwargs := {| device := dev; dtype := dt |}.

Lemma init_fields (self : Decoder) :
  constructed = inr self ->
  exists (layer0 : Layer) (rest : list Layer),
    fst (Py.iterate layer_arg) = layer0 :: rest
    /\ training self = true
    /\ model_dim self = layer_model_dim layer0
    /\ embed self = emb
    /\ (if no_scale_embed then Py.ok 1%float
        else Py.math_sqrt (embedding_dim emb)) = inr (embed_scale self)
    /\ pos_embed self = pos
    /\ (forall pe, pos = Some pe ->
        pos_embedding_dim pe = embedding_dim emb)
    /\ embed_norm self
       = (if norm_embed
          then Some {| normalized_shape := embedding_dim emb;
                       eps := norm_eps; ln_kwargs := kwargs |}
          else None)
    /\ embed_dropout_p self = embed_dropout
    /\ inp_dim_proj self
       = (if negb (embedding_dim emb =? model_dim self)
          then Some (InternalDimProjection_new (embedding_dim emb)
                                               (model_dim self) kwargs)
          else None)
    /\ self_attn_mask_gen self
       = match mask_gen with Some g => g | None => default_gen end
    /\ layers self
       = {| modules := fst (Py.iterate layer_arg); drop_p := layer_drop |}
    /\ layer_norm self
       = (if negb (norm_order_eqb norm_order POST)
          then Some {| normalized_shape := model_dim self;
                       eps := norm_eps; ln_kwargs := kwargs |}
          else None)
    /\ out_dim_proj self
       = (if negb (embedding_dim emb =? model_dim self)
          then Some (InternalDimProjection_new (model_dim self)
                                               (embedding_dim emb) kwargs)
          else None).
Proof.
  unfold __init__, ModuleList_new.
  destruct (Py.iterate layer_arg) as [items layers'] eqn:Eit. simpl.
  destruct items as [|layer0 rest]; [discriminate|].
  destruct (Py.iterate layers') as [second_pass ?].
  destruct (check_layer_dims _ _); [discriminate|].
  destruct (if no_scale_embed then _ else _) as [?|scale] eqn:Escale;
    [discriminate|].
  destruct pos as [pe|].
  - destruct (negb (pos_embedding_dim pe =? embedding_dim emb)) eqn:Epe;
      [discriminate|].
    intros E. inversion E; subst; clear E. simpl.
    exists layer0, rest. repeat split; try reflexivity.
    intros pe' Hpe'. inversion Hpe'; subst.
    apply negb_false_iff in Epe. now apply Z.eqb_eq.
  - intros E. inversion E; subst; clear E. simpl.
    exists layer0, rest. repeat split; try reflexivity.
    intros pe' Hpe'. discriminate Hpe'.
Qed.

(** Both adapters are present, or both absent, according to whether the two
    widths differ. *)
Lemma init_adapters (self : Decoder) :
  constructed = inr self ->
  embed self = emb
  /\ is_None (inp_dim_proj self) = (embedding_dim emb =? model_dim self)
  /\ is_None (out_dim_proj self) = (embedding_dim emb =? model_dim self)
  /\ (forall p, inp_dim_proj self = Some p ->
      inp_dim p = embedding_dim emb /\ out_dim p = model_dim self)
  /\ (forall p, out_dim_proj self = Some p ->
      inp_dim p = model_dim self /\ out_dim p = embedding_dim emb).
Proof.
  intros Hinit. apply init_fields in Hinit.
  destruct Hinit as [layer0 [rest [_ [_ [_ [He [_ [_ [_ [_ [_ [Hi [_ [_ [_ Ho
    ]]]]]]]]]]]]]]].
  rewrite Hi, Ho.
  destruct (embedding_dim emb =? model_dim self); simpl;
    repeat split; try assumption; try reflexivity;
    match goal with
    | Hp : Some _ = Some _ |- _ => inversion Hp; subst; reflexivity
    | Hp : None = Some _ |- _ => discriminate Hp
    end.
Qed.

End Construction.

(** ** The bag changes through layer calls only *)

Section Replay.

Context {Tensor Bag Rand : Type} `{Torch Tensor Rand}.

Local Abbreviation Decoder := (StandardTransformerDecoder Tensor Bag).
Local Abbreviation Layer := (TransformerDecoderLayer Tensor Bag).
Local Abbreviation Call := (Call Tensor Bag).
Local Abbreviation Noise := (Noise Rand).

Lemma ModuleList_iter_valid (ml : ModuleList Tensor Bag) (training : bool)
    (draws : list float) (idx : nat) (l : Layer) :
  In (idx, l) (ModuleList_iter ml training draws) ->
  nth_error (modules ml) idx = Some l.
Proof.
  unfold ModuleList_iter. intros Hin. apply enumerate_nth.
  destruct (PrimFloat.ltb 0 (if training then drop_p ml else 0%float));
    [|exact Hin].
  apply filter_In in Hin. now destruct Hin.
Qed.

Lemma replay_app (self : Decoder) (cs ds : list Call) (bag : option Bag) :
  replay self (cs ++ ds) bag = replay self ds (replay self cs bag).
Proof. unfold replay. apply fold_left_app. Qed.

Lemma replay_no_layer_call (self : Decoder) (cs : list Call) :
  forallb (fun c => negb (is_layer_call c)) cs = true ->
  forall bag : option Bag, replay self cs bag = bag.
Proof.
  induction cs as [|c cs IH]; intros Hall bag; [reflexivity|].
  simpl in Hall. apply andb_prop in Hall. destruct Hall as [Hc Hcs].
  unfold replay. simpl. fold (replay self cs).
  destruct c; simpl in *; try discriminate Hc; now apply IH.
Qed.

Lemma replay_layers_calls (self : Decoder)
    (mask pm enc_out enc_padding_mask : option Tensor)
    (ls : list (nat * Layer)) :
  (forall idx l, In (idx, l) ls ->
                 nth_error (modules (layers self)) idx = Some l) ->
  forall (bag : option Bag) (x : Tensor),
    replay self (layers_calls mask pm enc_out enc_padding_mask ls bag x) bag
    = layers_bag mask pm enc_out enc_padding_mask ls bag x.
Proof.
  induction ls as [|[idx l] ls IH]; intros Hls bag x; [reflexivity|].
  unfold replay. simpl.
  rewrite (Hls idx l (or_introl eq_refl)).
  apply IH. intros; apply Hls; now right.
Qed.

Lemma forward_calls_replay (self : Decoder) (noise : Noise) (seq : Tensor)
    (enc_out enc_padding_mask : option Tensor) (bag : option Bag) :
  replay self
         (forward_calls self noise seq enc_out enc_padding_mask bag) bag
  = stack_bag self noise bag (padding_mask_value self seq) enc_out
              enc_padding_mask (stack_input self noise bag seq).
Proof.
  unfold forward_calls, stack_calls, stack_bag.
  rewrite !replay_app.
  rewrite (replay_no_layer_call self (padding_mask_calls self seq)).
  2:{ unfold padding_mask_calls. now destruct (padding_idx (embed self)). }
  rewrite (replay_no_layer_call self (embed_calls self bag seq)).
  2:{ unfold embed_calls.
      destruct (scales self), (pos_embed self), (embed_norm self),
        (drops self); reflexivity. }
  rewrite (replay_no_layer_call self
             (if is_None (inp_dim_proj self) then [] else _))
    by (now destruct (inp_dim_proj self)).
  rewrite (replay_no_layer_call self
             (if training self || is_None bag then _ else []))
    by (now destruct (training self || is_None bag)).
  rewrite replay_layers_calls by apply ModuleList_iter_valid.
  rewrite (replay_no_layer_call self
             (if is_None (layer_norm self) then [] else _))
    by (now destruct (layer_norm self)).
  rewrite (replay_no_layer_call self
             (if is_None (out_dim_proj self) then [] else _))
    by (now destruct (out_dim_proj self)).
  reflexivity.
Qed.

Lemma layers_bag_None
    (mask pm enc_out enc_padding_mask : option Tensor)
    (ls : list (nat * Layer)) :
  forall x : Tensor,
    layers_bag mask pm enc_out enc_padding_mask ls None x = None.
Proof.
  induction ls as [|[idx l] ls IH]; intros x; simpl; [reflexivity|].
  apply IH.
Qed.

Lemma layers_bag_is_None
    (mask pm enc_out enc_padding_mask : option Tensor)
    (ls : list (nat * Layer)) :
  forall (bag : option Bag) (x : Tensor),
    is_None (layers_bag mask pm enc_out enc_padding_mask ls bag x)
    = is_None bag.
Proof.
  induction ls as [|[idx l] ls IH]; intros bag x; simpl; [reflexivity|].
  rewrite IH. now destruct bag.
Qed.

Lemma filter_all {A} (f : A -> bool) (xs : list A) :
  forallb f xs = true -> filter f xs = xs.
Proof.
  induction xs as [|a xs IH]; simpl; intros Hall; [reflexivity|].
  apply andb_prop in Hall. destruct Hall as [Ha Hxs].
  now rewrite Ha, IH.
Qed.

(** The layer calls of a pass, by index: the layers [ModuleList] hands out. *)
Lemma forward_calls_layer_indices (self : Decoder) (noise : Noise)
    (seq : Tensor) (enc_out enc_padding_mask : option Tensor)
    (bag : option Bag) :
  map layer_call_index
      (filter is_layer_call
              (forward_calls self noise seq enc_out enc_padding_mask bag))
  = map (fun il => Some (fst il))
        (ModuleList_iter (layers self) (training self)
                         (layer_draws noise)).
Proof.
  unfold forward_calls, stack_calls. rewrite !filter_app.
  rewrite (filter_none is_layer_call plain (padding_mask_calls self seq)
             (padding_mask_calls_plain self seq)).
  2:{ intros c. destruct c; simpl; try reflexivity; discriminate. }
  rewrite (filter_none is_layer_call is_embed_path_call
             (embed_calls self bag seq) (embed_calls_kinds self bag seq)).
  2:{ intros c. destruct c; simpl; try reflexivity; discriminate. }
  rewrite (filter_all is_layer_call (layers_calls _ _ _ _ _ _ _)).
  2:{ apply forallb_forall. intros c Hin.
      now apply layers_calls_all_layer_calls in Hin. }
  destruct (inp_dim_proj self), (training self || is_None bag),
    (layer_norm self), (out_dim_proj self); simpl;
    rewrite ?app_nil_r; apply layers_calls_indices.
Qed.

End Replay.

(** * Properties of the decoder *)

Ltac by_kind :=
  let c := fresh "c" in
  let Hc := fresh "Hc" in
  intros c Hc; destruct c; simpl in *; try reflexivity; discriminate.

Section MaskPolicy.

Context {Tensor Bag Rand : Type} `{Torch Tensor Rand}.

Local Abbreviation Decoder := (StandardTransformerDecoder Tensor Bag).
Local Abbreviation Call := (Call Tensor Bag).
Local Abbreviation Noise := (Noise Rand).

(** C3.  In every call of [forward] the mask generator is invoked if and
    only if the module is in training mode or no state bag is supplied: the
    mask-generation calls of the trace are the single call on the input of
    the stack in that case and none otherwise.  Every layer then receives
    that mask, and receives [None] when no mask was built. *)
Theorem self_attn_mask_built_iff_training_or_no_bag
    (self : Decoder) (noise : Noise) (seq : Tensor)
    (enc_out enc_padding_mask : option Tensor) (state_bag : option Bag) :
  let r := run_forward self noise seq enc_out enc_padding_mask state_bag in
  let x := stack_input self noise state_bag seq in
  existsb is_mask_gen_call (trace r)
  = (training self || is_None state_bag)
  /\ filter is_mask_gen_call (trace r)
     = (if training self || is_None state_bag then [Call_mask_gen x] else [])
  /\ forall (c : Call) (m : option Tensor),
       In c (trace r) ->
       layer_call_mask c = Some m ->
       m = (if training self || is_None state_bag
            then Some (mask_forward (self_attn_mask_gen self) x)
            else None).
Proof.
  intros r x. unfold r, trace. rewrite run_forward_eq. simpl.
  assert (Hfilter :
    filter is_mask_gen_call
           (forward_calls self noise seq enc_out enc_padding_mask state_bag)
    = (if training self || is_None state_bag then [Call_mask_gen x]
       else [])).
  { unfold forward_calls, stack_calls. rewrite !filter_app.
    rewrite filter_padding_mask_calls, filter_embed_calls,
      filter_layers_calls;
      try by_kind.
    destruct (inp_dim_proj self), (layer_norm self), (out_dim_proj self),
      (training self || is_None state_bag); reflexivity. }
  split; [|split].
  - destruct (existsb is_mask_gen_call _) eqn:E.
    + apply existsb_exists in E. destruct E as [c [Hin Hc]].
      assert (Hf : In c (filter is_mask_gen_call
                (forward_calls self noise seq enc_out enc_padding_mask
                               state_bag)))
        by (apply filter_In; now split).
      rewrite Hfilter in Hf.
      destruct (training self || is_None state_bag);
        [reflexivity | contradiction].
    + destruct (training self || is_None state_bag) eqn:Em;
        [|reflexivity].
      assert (Hin : In (Call_mask_gen x)
                (filter is_mask_gen_call
                   (forward_calls self noise seq enc_out enc_padding_mask
                                  state_bag)))
        by (rewrite Hfilter; now left).
      apply filter_In in Hin. destruct Hin as [Hin _].
      assert (Hex : existsb is_mask_gen_call
                (forward_calls self noise seq enc_out enc_padding_mask
                               state_bag) = true)
        by (apply existsb_exists; exists (Call_mask_gen x); now split).
      congruence.
  - exact Hfilter.
  - intros c m Hin Hm.
    destruct (is_layer_call c) eqn:Elayer.
    + destruct (forward_calls_layer_call _ _ _ _ _ _ _ Hin Elayer)
        as [Hmask _].
      rewrite Hmask in Hm. inversion Hm; subst.
      unfold self_attn_mask_value. reflexivity.
    + apply not_layer_call_mask in Elayer. destruct Elayer as [E _].
      congruence.
Qed.

End MaskPolicy.

Section PaddingMask.

Context {Tensor Bag Rand : Type} `{Torch Tensor Rand}.

Local Abbreviation Decoder := (StandardTransformerDecoder Tensor Bag).
Local Abbreviation Call := (Call Tensor Bag).
Local Abbreviation World := (World Tensor Bag Rand).
Local Abbreviation Noise := (Noise Rand).

(** [elem x i] is the entry of an integer tensor at position [i];
    [marked m i] says that a mask, boolean or float, masks position [i]. *)
Variable elem : Tensor -> nat -> option Z.
Variable marked : Tensor -> nat -> Prop.

(** [x.eq(p)] is true exactly where [x] holds [p], and [to_float_mask]
    masks what the boolean mask masks. *)
Hypothesis eq_marks :
  forall (x : Tensor) (p : Z) (i : nat),
    marked (Tensor_eq x p) i <-> elem x i = Some p.
Hypothesis to_float_mask_marks :
  forall (m : Tensor) (dt : DataType) (i : nat),
    marked (to_float_mask m dt) i <-> marked m i.

(** C5.  With a padding index [p] configured, the mask derived from [seq]
    marks exactly the positions of [seq] that hold [p]; it is built by one
    comparison and one conversion, with no reduction in between.  Without a
    padding index the method returns [None] and calls nothing. *)
Theorem padding_mask_marks_exactly_padding (seq : Tensor) (w : World) :
  match padding_idx (embed (w_self w)) with
  | Some p =>
      exists m : Tensor,
        _get_self_attn_padding_mask seq w
        = (Some m,
           logged w [Call_eq seq p;
                     Call_to_float_mask
                       (Tensor_eq seq p)
                       (dtype_float (weight_dtype (embed (w_self w))))])
        /\ forall i : nat, marked m i <-> elem seq i = Some p
  | None => _get_self_attn_padding_mask seq w = (None, w)
  end.
Proof.
  rewrite _get_self_attn_padding_mask_run.
  unfold padding_mask_value, padding_mask_calls.
  destruct (padding_idx (embed (w_self w))) as [p|].
  - eexists. split; [reflexivity|]. intros i.
    rewrite to_float_mask_marks. apply eq_marks.
  - now rewrite logged_nil.
Qed.

(** What [to_float_mask] returns has the floating dtype it was asked for. *)
Hypothesis to_float_mask_dtype :
  forall (m : Tensor) (f : FloatType),
    Tensor_dtype (to_float_mask m (dtype_float f)) = dtype_float f.

(** C10.  With a padding index [p] configured, the padding mask every layer
    receives is the float conversion of [seq.eq(p)] in the dtype of the
    embedding weight; its dtype is that floating dtype, not bool. *)
Theorem layers_receive_float_padding_mask
    (self : Decoder) (noise : Noise) (seq : Tensor)
    (enc_out enc_padding_mask : option Tensor) (state_bag : option Bag)
    (p : Z) :
  padding_idx (embed self) = Some p ->
  forall (c : Call) (pm : option Tensor),
    In c (trace (run_forward self noise seq enc_out enc_padding_mask
                             state_bag)) ->
    layer_call_padding_mask c = Some pm ->
    exists m : Tensor,
      pm = Some m
      /\ m = to_float_mask (Tensor_eq seq p)
                           (dtype_float (weight_dtype (embed self)))
      /\ Tensor_dtype m = dtype_float (weight_dtype (embed self))
      /\ is_floating_point (Tensor_dtype m) = true.
Proof.
  intros Hp c pm Hin Hpm. unfold trace in Hin.
  rewrite run_forward_eq in Hin. simpl in Hin.
  destruct (is_layer_call c) eqn:Elayer.
  - destruct (forward_calls_layer_call _ _ _ _ _ _ _ Hin Elayer)
      as [_ Hmask].
    rewrite Hmask in Hpm. inversion Hpm; subst.
    unfold padding_mask_value. rewrite Hp.
    eexists. split; [reflexivity|]. split; [reflexivity|].
    rewrite to_float_mask_dtype. now split.
  - apply not_layer_call_mask in Elayer. destruct Elayer as [_ [E _]].
    congruence.
Qed.

End PaddingMask.

Section EmbedScale.

Context {Tensor Bag Rand : Type} `{Torch Tensor Rand}.

Local Abbreviation Decoder := (StandardTransformerDecoder Tensor Bag).
Local Abbreviation Layer := (TransformerDecoderLayer Tensor Bag).
Local Abbreviation Call := (Call Tensor Bag).
Local Abbreviation Noise := (Noise Rand).

(** Multiplying a tensor by the float 1.0 leaves it as it is. *)
Hypothesis mul_one : forall x : Tensor, Tensor_mul x 1%float = x.

Lemma scaled_is_product (self : Decoder) (e : Tensor) :
  scaled self e = Tensor_mul e (embed_scale self).
Proof.
  unfold scaled, scales.
  destruct (PrimFloat.eqb (embed_scale self) 1) eqn:E; simpl;
    [|reflexivity].
  rewrite eqb_spec in E.
  assert (Hone : Prim2SF 1%float = S754_finite false 4503599627370496 (-52))
    by reflexivity.
  rewrite Hone in E.
  destruct (Prim2SF (embed_scale self)) as [s|s| |s m x] eqn:Es;
    unfold SFeqb, SFcompare in E; try discriminate E;
    try (destruct s; discriminate E).
  destruct s; [discriminate E|].
  destruct (Z.compare x (-52)) eqn:Ex; try discriminate E.
  apply Z.compare_eq in Ex. subst x.
  destruct (Pos.compare_cont Eq m 4503599627370496) eqn:Em;
    try discriminate E.
  apply Pos.compare_eq in Em. subst m.
  assert (Hs : embed_scale self = 1%float).
  { rewrite <- (SF2Prim_Prim2SF (embed_scale self)), Es. reflexivity. }
  now rewrite Hs, mul_one.
Qed.


End EmbedScale.

Section Adapters.

Context {Tensor Bag Rand : Type} `{Torch Tensor Rand}.

Local Abbreviation Decoder := (StandardTransformerDecoder Tensor Bag).
Local Abbreviation Layer := (TransformerDecoderLayer Tensor Bag).
Local Abbreviation Call := (Call Tensor Bag).
Local Abbreviation Noise := (Noise Rand).

(** C7.  In the decoder a construction returns, the input-side and the
    output-side adapter are both present when [embedding_dim] differs from
    [model_dim] and both absent ([None], no placeholder module) when the two
    are equal.  In the latter case the adapters own no parameter and a call
    of [forward] makes no projection call; in the former it makes the two. *)
Theorem adapters_exist_iff_widths_differ
    (default_gen : AttentionMaskGenerator Tensor)
    (emb : Embedding Tensor) (pos : option (PositionalEmbedding Tensor Bag))
    (layer_arg : Py.Iterable Layer) (no_scale_embed norm_embed : bool)
    (embed_dropout : float)
    (mask_gen : option (AttentionMaskGenerator Tensor)) (layer_drop : float)
    (norm_order : TransformerNormOrder) (norm_eps : float)
    (dev : option Device) (dt : option DataType)
    (self : Decoder) (mode : bool) (noise : Noise) (seq : Tensor)
    (enc_out enc_padding_mask : option Tensor) (state_bag : option Bag) :
  __init__ default_gen emb pos layer_arg no_scale_embed norm_embed
           embed_dropout mask_gen layer_drop norm_order norm_eps dev dt
  = inr self ->
  let r := run_forward (train mode self) noise seq enc_out enc_padding_mask
                       state_bag in
  let kw := {| device := dev; dtype := dt |} in
  if embedding_dim emb =? model_dim self then
    inp_dim_proj self = None
    /\ out_dim_proj self = None
    /\ adapter_numel self = 0
    /\ filter is_projection_call (trace r) = []
  else
    inp_dim_proj self
    = Some (InternalDimProjection_new (embedding_dim emb) (model_dim self)
                                      kw)
    /\ out_dim_proj self
       = Some (InternalDimProjection_new (model_dim self)
                                         (embedding_dim emb) kw)
    /\ List.length (filter is_projection_call (trace r)) = 2%nat.
Proof.
  intros Hinit r kw.
  pose proof Hinit as Hf. apply init_fields in Hf.
  destruct Hf as [layer0 [rest [_ [_ [_ [_ [_ [_ [_ [_ [_ [Hi [_ [_ [_ Ho
    ]]]]]]]]]]]]]]].
  assert (Hproj :
    filter is_projection_call (trace r)
    = (if is_None (inp_dim_proj self) then []
       else [Call_inp_dim_proj
               (embed_value (train mode self) state_bag
                            (dropout_noise noise) seq)])
      ++ (if is_None (out_dim_proj self) then []
          else [Call_out_dim_proj
                  (stack_value (train mode self) noise state_bag
                     (padding_mask_value (train mode self) seq) enc_out
                     enc_padding_mask
                     (stack_input (train mode self) noise state_bag seq))])).
  { unfold r, trace. rewrite run_forward_eq. simpl.
    unfold forward_calls, stack_calls. rewrite !filter_app.
    rewrite filter_padding_mask_calls, filter_embed_calls,
      filter_layers_calls by by_kind.
    simpl.
    destruct (inp_dim_proj self), (mode || is_None state_bag),
      (layer_norm self), (out_dim_proj self); reflexivity. }
  rewrite Hproj. unfold adapter_numel. rewrite Hi, Ho.
  destruct (embedding_dim emb =? model_dim self); simpl; now repeat split.
Qed.

End Adapters.

Section Inference.

Context {Tensor Bag Rand : Type} `{Torch Tensor Rand}.

Local Abbreviation Decoder := (StandardTransformerDecoder Tensor Bag).
Local Abbreviation Call := (Call Tensor Bag).
Local Abbreviation Noise := (Noise Rand).

(** The indices of the layers a call has run, in order. *)
Definition layers_run (cs : list Call) : list (option nat) :=
  map layer_call_index (filter is_layer_call cs).

(** C8.  Outside training mode a call of [forward] does not depend on the
    random choices, whatever [layer_drop_p] is: two calls on the same input
    and the same state bag (or none) return the same tensor, leave the same
    bag and make the same collaborator calls, and every layer of the stack
    runs, in order. *)
Theorem inference_is_deterministic
    (self : Decoder) (noise1 noise2 : Noise) (seq : Tensor)
    (enc_out enc_padding_mask : option Tensor) (state_bag : option Bag) :
  training self = false ->
  let r1 := run_forward self noise1 seq enc_out enc_padding_mask state_bag in
  let r2 := run_forward self noise2 seq enc_out enc_padding_mask state_bag in
  output r1 = output r2
  /\ state_bag_after r1 = state_bag_after r2
  /\ trace r1 = trace r2
  /\ layers_run (trace r1)
     = map Some (List.seq 0 (List.length (modules (layers self)))).
Proof.
  intros Heval r1 r2. unfold r1, r2, output, state_bag_after, trace,
    layers_run.
  rewrite !run_forward_eq. simpl.
  rewrite forward_calls_layer_indices.
  unfold forward_value, forward_calls, stack_value, stack_calls, stack_bag,
    stack_input, embed_value, embed_calls, dropped, self_attn_mask_value.
  rewrite !Heval. unfold F_dropout.
  rewrite !ModuleList_iter_eval.
  split; [|split; [|split]].
  - destruct (drops self); reflexivity.
  - destruct (drops self); reflexivity.
  - destruct (drops self); reflexivity.
  - rewrite <- enumerate_fst, map_map. reflexivity.
Qed.

End Inference.

Section Frame.

Context {Tensor Bag Rand : Type} `{Torch Tensor Rand}.

Local Abbreviation Decoder := (StandardTransformerDecoder Tensor Bag).
Local Abbreviation Call := (Call Tensor Bag).
Local Abbreviation Noise := (Noise Rand).


End Frame.

Section OutputShape.

Context {Tensor Bag Rand : Type} `{Torch Tensor Rand}.

Local Abbreviation Decoder := (StandardTransformerDecoder Tensor Bag).
Local Abbreviation Layer := (TransformerDecoderLayer Tensor Bag).
Local Abbreviation Noise := (Noise Rand).

Lemma layers_value_shape (self : Decoder)
    (mask pm enc_out enc_padding_mask : option Tensor)
    (ls : list (nat * Layer)) :
  ShapeContract self ->
  (forall idx l, In (idx, l) ls -> In l (modules (layers self))) ->
  forall (bag : option Bag) (x : Tensor),
    Tensor_shape (layers_value mask pm enc_out enc_padding_mask ls bag x)
    = Tensor_shape x.
Proof.
  intros Hc. induction ls as [|[idx l] ls IH]; intros Hls bag x; simpl;
    [reflexivity|].
  rewrite IH by (intros; eapply Hls; right; eassumption).
  apply (layer_shape Hc). eapply Hls. now left.
Qed.

Lemma embed_value_shape (self : Decoder) (bag : option Bag) (r : Rand)
    (seq : Tensor) :
  ShapeContract self ->
  Tensor_shape (embed_value self bag r seq)
  = Tensor_shape seq ++ [embedding_dim (embed self)].
Proof.
  intros Hc. unfold embed_value, dropped, normed, positioned, scaled,
    F_dropout.
  destruct (drops self);
    [destruct (training self); [rewrite (dropout_shape Hc)|]|];
    (destruct (embed_norm self); [rewrite (layer_norm_shape Hc)|]);
    (destruct (pos_embed self) as [pe|] eqn:Epe;
     [rewrite (pos_shape Hc Epe)|]);
    (destruct (scales self); [rewrite (mul_shape Hc)|]);
    apply (embed_shape Hc).
Qed.


End OutputShape.

Section IncrementalDecoding.

Context {Tensor Bag Rand : Type} `{Torch Tensor Rand} `{TimeAxis Tensor}
  `{StateBag Bag}.

Local Abbreviation Decoder := (StandardTransformerDecoder Tensor Bag).
Local Abbreviation Noise := (Noise Rand).


End IncrementalDecoding.

(** ** Construction-time validation *)

Section Validation.

Context {Tensor Bag : Type}.

Local Abbreviation Decoder := (StandardTransformerDecoder Tensor Bag).
Local Abbreviation Layer := (TransformerDecoderLayer Tensor Bag).

Lemma check_layer_dims_pass (model_dim : Z) (ls : list Layer) :
  forall start : nat,
    Forall (fun l => layer_model_dim l = model_dim) ls ->
    check_layer_dims model_dim (Py.enumerate_from start ls) = inr tt.
Proof.
  induction ls as [|l ls IH]; intros start Hall; simpl; [reflexivity|].
  inversion Hall as [|? ? Hl Hls]; subst.
  rewrite Z.eqb_refl. simpl. now apply IH.
Qed.

(** The loop stops at the first layer whose width is off and reports its
    index. *)
Lemma check_layer_dims_fail (model_dim : Z) (ls : list Layer) :
  forall start : nat,
    ~ Forall (fun l => layer_model_dim l = model_dim) ls ->
    exists (idx : nat) (l : Layer),
      check_layer_dims model_dim (Py.enumerate_from start ls)
      = inl (Py.ValueError_layer_model_dim (start + idx) (layer_model_dim l)
                                           model_dim)
      /\ nth_error ls idx = Some l
      /\ layer_model_dim l <> model_dim
      /\ Forall (fun l' => layer_model_dim l' = model_dim) (firstn idx ls).
Proof.
  induction ls as [|l ls IH]; intros start Hnot.
  - exfalso. apply Hnot. constructor.
  - simpl. destruct (layer_model_dim l =? model_dim) eqn:E; simpl.
    + apply Z.eqb_eq in E.
      destruct (IH (S start)) as [idx [l' [Hc [Hn [Hd Hf]]]]].
      { intros Hall. apply Hnot. now constructor. }
      exists (S idx), l'. repeat split; try assumption.
      * rewrite Hc. f_equal. f_equal. lia.
      * simpl. now constructor.
    + apply Z.eqb_neq in E. exists 0%nat, l. rewrite Nat.add_0_r.
      repeat split; try assumption. simpl. constructor.
Qed.

Variable default_gen : AttentionMaskGenerator Tensor.
Variable emb : Embedding Tensor.
Variable pos : option (PositionalEmbedding Tensor Bag).
Variables no_scale_embed norm_embed : bool.
Variable embed_dropout : float.
Variable mask_gen : option (AttentionMaskGenerator Tensor).
Variable layer_drop : float.
Variable norm_order : TransformerNormOrder.
Variable norm_eps : float.
Variable dev : option Device.
Variable dt : option DataType.

Local Abbreviation construct layer_arg :=
  (__init__ default_gen emb pos layer_arg no_scale_embed norm_embed
            embed_dropout mask_gen layer_drop norm_order norm_eps dev dt).

(** An iterable that yields nothing is rejected, whatever its kind. *)
Lemma init_rejects_no_layers (layer_arg : Py.Iterable Layer) :
  fst (Py.iterate layer_arg) = [] ->
  construct layer_arg = inl Py.ValueError_no_layers.
Proof.
  unfold __init__, ModuleList_new.
  destruct (Py.iterate layer_arg) as [items layers']. simpl.
  now intros ->.
Qed.

(** A list with a layer of another width is rejected, and the error names
    the first such layer. *)
Lemma init_rejects_mismatched_list (layer0 : Layer) (rest : list Layer) :
  ~ Forall (fun l => layer_model_dim l = layer_model_dim layer0) rest ->
  exists (idx : nat) (l : Layer),
    construct (Py.Sequence (layer0 :: rest))
    = inl (Py.ValueError_layer_model_dim idx (layer_model_dim l)
                                         (layer_model_dim layer0))
    /\ nth_error (layer0 :: rest) idx = Some l
    /\ layer_model_dim l <> layer_model_dim layer0
    /\ Forall (fun l' => layer_model_dim l' = layer_model_dim layer0)
              (firstn idx (layer0 :: rest)).
Proof.
  intros Hnot.
  destruct (@check_layer_dims_fail (layer_model_dim layer0)
                                   (layer0 :: rest) 0)
    as [idx [l [Hc [Hn [Hd Hf]]]]].
  { intros Hall. apply Hnot. now inversion Hall. }
  exists idx, l. repeat split; try assumption.
  unfold __init__, ModuleList_new, Py.enumerate. simpl. simpl in Hc.
  now rewrite Hc.
Qed.

(** A positional encoder of another width is rejected in the constructor:
    no decoder comes out. *)
Lemma init_rejects_pos_embed_width (layer_arg : Py.Iterable Layer)
    (pe : PositionalEmbedding Tensor Bag) :
  pos = Some pe ->
  pos_embedding_dim pe <> embedding_dim emb ->
  Py.is_error (construct layer_arg) = true.
Proof.
  intros Hpos Hne.
  destruct (construct layer_arg) as [e|self] eqn:E; [reflexivity|].
  exfalso. apply init_fields in E.
  destruct E as [_ [_ [_ [_ [_ [_ [_ [_ [Hpe _]]]]]]]]].
  apply Hne. now apply Hpe.
Qed.

(** A generator is drained by [ModuleList]: the width loop sees nothing and
    never fails. *)
Lemma init_generator_skips_width_check (items : list Layer)
    (idx : nat) (a b : Z) :
  construct (Py.Iterator items)
  <> inl (Py.ValueError_layer_model_dim idx a b).
Proof.
  unfold __init__, ModuleList_new. simpl.
  destruct items as [|layer0 rest]; [discriminate|].
  destruct (if no_scale_embed then _ else _) as [e|s] eqn:Es;
    [|destruct pos as [pe|]].
  - intros E. inversion E; subst. destruct no_scale_embed; [discriminate|].
    unfold Py.math_sqrt, Py.float_of_int, Py.raise, Py.ok in Es.
    destruct (PrimFloat.is_infinity _); [discriminate Es|].
    destruct (embedding_dim emb <? 0); discriminate Es.
  - destruct (negb _); discriminate.
  - discriminate.
Qed.

End Validation.

(** * The executable instance meets the contracts *)

Module ToyFacts.

Import Toy.

#[local] Set Warnings "-inexact-float".

Lemma decoder_4_4_built : decoder_4_4 = inr d44.
Proof. reflexivity. Qed.

Lemma decoder_4_8_built : decoder_4_8 = inr d48.
Proof. reflexivity. Qed.

Lemma decoder_unscaled_built : decoder_unscaled = inr d44_unscaled.
Proof. reflexivity. Qed.

Lemma mismatched_list_rejected :
  mismatched_list = inl (Py.ValueError_layer_model_dim 1 8 4)
  /\ Py.message (Py.ValueError_layer_model_dim 1 8 4)
     = "`model_dim` of the decoder layer 1 (8) does not match `model_dim` (4)."%string.
Proof. split; reflexivity. Qed.

Lemma mismatched_generator_built : mismatched_generator = inr d_mismatched.
Proof. reflexivity. Qed.

Lemma eta (x : tensor) :
  {| t_dtype := t_dtype x; t_tail := t_tail x; t_rows := t_rows x |} = x.
Proof. now destruct x. Qed.

(** An operator given row by row, with the dtype and the tail a function of
    the dtype and the tail of its argument. *)
Definition rowwise (D : DataType -> list Z -> DataType)
    (T : DataType -> list Z -> list Z)
    (F : DataType -> list Z -> list Z -> list Z) (x : tensor) : tensor :=
  {| t_dtype := D (t_dtype x) (t_tail x);
     t_tail := T (t_dtype x) (t_tail x);
     t_rows := map (F (t_dtype x) (t_tail x)) (t_rows x) |}.

Ltac on_rows :=
  cbn [prefix at_step tlen time t_rows t_dtype t_tail positional
       pos_forward bag_step state_bag].

Lemma rowwise_position_wise D T F : position_wise (rowwise D T F).
Proof.
  split; intros; unfold rowwise; on_rows.
  - now rewrite firstn_map.
  - now rewrite skipn_map, firstn_map.
  - apply length_map.
Qed.

Lemma position_wise_ext (f g : tensor -> tensor) :
  (forall x, f x = g x) -> position_wise g -> position_wise f.
Proof.
  intros Hfg [Hp Hs Hl]. split; intros.
  - now rewrite !Hfg.
  - now rewrite !Hfg.
  - now rewrite Hfg.
Qed.

Lemma project_rowwise (p : InternalDimProjection) :
  forall x, project p x
  = rowwise (fun dt _ => dt)
      (fun _ tail =>
         match rev tail with
         | w :: lead =>
             if w =? inp_dim p then rev lead ++ [out_dim p] else tail
         | [] => tail
         end)
      (fun _ tail row =>
         match rev tail with
         | w :: lead =>
             if w =? inp_dim p
             then map (fun j => sum row + Z.of_nat j)
                      (seq 0 (Z.to_nat (out_dim p)))
             else row
         | [] => row
         end) x.
Proof.
  intros x. unfold project, rowwise, map_rows.
  destruct (rev (t_tail x)) as [|w lead].
  - now rewrite map_id, eta.
  - destruct (w =? inp_dim p); [reflexivity|]. now rewrite map_id, eta.
Qed.

Lemma time_laws : TimeAxisLaws.
Proof.
  split; intros; on_rows.
  - f_equal. rewrite skipn_firstn_comm, firstn_firstn.
    f_equal. lia.
  - f_equal. rewrite firstn_firstn. f_equal. lia.
  - apply length_firstn.
Qed.

Lemma torch_contract : TorchContract.
Proof.
  split; intros.
  - apply (rowwise_position_wise (fun _ _ => dtype_bool) (fun _ tail => tail)
             (fun _ _ => map (fun v => if v =? p then 1 else 0))).
  - apply (rowwise_position_wise (fun _ _ => dt) (fun _ tail => tail)
             (fun _ _ => map (fun v => if v =? 0 then 0 else neg_inf))).
  - apply (rowwise_position_wise (fun d _ => d) (fun _ tail => tail)
             (fun _ _ => map (fun v => v * Z_of_float c))).
  - apply (rowwise_position_wise (fun d _ => d) (fun _ tail => tail)
             (fun _ _ row => map (fun v => v + v - hd 0 row) row)).
  - eapply position_wise_ext; [apply project_rowwise|].
    apply rowwise_position_wise.
Qed.

Lemma bag_laws : StateBagLaws.
Proof. split; reflexivity. Qed.

Lemma embedding_position_wise (dim : Z) (pad : option Z) :
  position_wise (embed_forward (embedding dim pad)).
Proof.
  apply (rowwise_position_wise
           (fun _ _ => dtype_float float32) (fun _ tail => tail ++ [dim])
           (fun _ _ => flat_map (fun k => map (fun j => 10 * k + Z.of_nat j)
                                              (seq 0 (Z.to_nat dim))))).
Qed.

Lemma number_from_firstn (n : nat) (rows : list (list Z)) :
  forall start : nat,
    firstn n (number_from start rows) = number_from start (firstn n rows).
Proof.
  revert n. induction rows as [|row rows IH]; intros [|n] start; simpl;
    try reflexivity.
  now rewrite IH.
Qed.

Lemma number_from_skipn (t : nat) :
  forall (rows : list (list Z)) (start : nat),
    skipn t (number_from start rows)
    = number_from (start + t) (skipn t rows).
Proof.
  induction t as [|t IH]; intros rows start; simpl.
  - now rewrite Nat.add_0_r.
  - destruct rows as [|row rows]; simpl; [reflexivity|].
    rewrite IH. f_equal. lia.
Qed.

Lemma number_from_length (rows : list (list Z)) :
  forall start : nat,
    List.length (number_from start rows) = List.length rows.
Proof.
  induction rows as [|row rows IH]; intros start; simpl; [reflexivity|].
  now rewrite IH.
Qed.

Lemma positional_contract (dim : Z) : PositionalContract (positional dim).
Proof.
  split; intros; on_rows.
  - now rewrite number_from_firstn.
  - apply number_from_length.
  - f_equal. rewrite number_from_skipn, number_from_firstn.
    now subst t.
Qed.

(** *** The layers *)

Lemma attend_app (a b : list (list Z * Z)) :
  attend [] (a ++ b) = attend [] a + attend [] b.
Proof.
  induction a as [|[row f] a IH]; simpl; [reflexivity|].
  rewrite IH. lia.
Qed.

Lemma attend_blocked (b : nat) :
  forall keys : list (list Z * Z),
    (List.length keys <= b)%nat -> attend (repeat neg_inf b) keys = 0.
Proof.
  induction b as [|b IH]; intros [|[row f] keys] Hlen; simpl in *;
    try reflexivity; try lia.
  rewrite IH by lia. reflexivity.
Qed.

Lemma attend_causal (a b : nat) :
  forall keys : list (list Z * Z),
    (List.length keys <= a + b)%nat ->
    attend (repeat 0 a ++ repeat neg_inf b) keys
    = attend [] (firstn a keys).
Proof.
  induction a as [|a IH]; intros keys Hlen.
  - simpl. now apply attend_blocked.
  - destruct keys as [|[row f] keys]; [reflexivity|].
    simpl in *. rewrite IH by lia. reflexivity.
Qed.

(** The rows of the full pass under the causal mask: position [i] gathers
    the first [i + 1] keys. *)
Fixpoint causal_rows (keys : list (list Z * Z)) (enc : Z) (i : nat)
    (rows : list (list Z)) : list (list Z) :=
  match rows with
  | [] => []
  | row :: rest =>
      map (fun v => v + attend [] (firstn (S i) keys) + enc) row
      :: causal_rows keys enc (S i) rest
  end.

Lemma causal_rows_cons (keys : list (list Z * Z)) (enc : Z) (i : nat)
    (row : list Z) (rest : list (list Z)) :
  causal_rows keys enc i (row :: rest)
  = map (fun v => v + attend [] (firstn (S i) keys) + enc) row
    :: causal_rows keys enc (S i) rest.
Proof. reflexivity. Qed.

Lemma queries_causal (x0 : tensor) (keys : list (list Z * Z)) (enc : Z) :
  List.length keys = List.length (t_rows x0) ->
  forall (rows : list (list Z)) (i : nat),
    (i + List.length rows <= List.length keys)%nat ->
    queries (Some (mask_forward causal x0)) [] keys enc i rows
    = causal_rows keys enc i rows.
Proof.
  intros Hkeys. induction rows as [|row rows IH]; intros i Hlen;
    [reflexivity|].
  simpl in Hlen. rewrite causal_rows_cons. cbn [queries].
  rewrite IH by lia. f_equal.
  cbn [mask_forward causal t_rows].
  set (n := List.length (t_rows x0)) in *.
  assert (Hrow : nth i (map (causal_row n) (seq 0 n)) [] = causal_row n i).
  { rewrite (nth_indep _ [] (causal_row n 0))
      by (rewrite length_map, length_seq; lia).
    rewrite map_nth. f_equal. rewrite seq_nth; lia. }
  rewrite Hrow. unfold causal_row. rewrite attend_causal by lia.
  apply map_ext. intros v. simpl attend. lia.
Qed.

Lemma causal_rows_firstn (keys : list (list Z * Z)) (enc : Z) (n : nat) :
  forall (rows : list (list Z)) (i N : nat),
    (i + n <= N)%nat ->
    firstn n (causal_rows keys enc i rows)
    = causal_rows (firstn N keys) enc i (firstn n rows).
Proof.
  induction n as [|n IH]; intros rows i N Hle; [reflexivity|].
  destruct rows as [|row rows]; [reflexivity|].
  rewrite firstn_cons, !causal_rows_cons, firstn_cons.
  rewrite (IH rows (S i) N) by lia. f_equal.
  rewrite firstn_firstn. replace (Nat.min (S i) N) with (S i) by lia.
  reflexivity.
Qed.

Lemma causal_rows_skipn (keys : list (list Z * Z)) (enc : Z) (t : nat) :
  forall (rows : list (list Z)) (i : nat),
    skipn t (causal_rows keys enc i rows)
    = causal_rows keys enc (i + t) (skipn t rows).
Proof.
  induction t as [|t IH]; intros rows i.
  - simpl. now rewrite Nat.add_0_r.
  - destruct rows as [|row rows]; [reflexivity|].
    rewrite causal_rows_cons. cbn [skipn]. rewrite IH. f_equal. lia.
Qed.

Lemma causal_rows_length (keys : list (list Z * Z)) (enc : Z) :
  forall (rows : list (list Z)) (i : nat),
    List.length (causal_rows keys enc i rows) = List.length rows.
Proof.
  induction rows as [|row rows IH]; intros i; simpl; [reflexivity|].
  now rewrite IH.
Qed.

Lemma keys_from_length (pm : option tensor) (rows : list (list Z)) :
  forall start : nat,
    List.length (keys_from start rows pm) = List.length rows.
Proof.
  induction rows as [|row rows IH]; intros start; simpl; [reflexivity|].
  now rewrite IH.
Qed.

Lemma flag_prefix (pm : option tensor) (N j : nat) :
  (j < N)%nat -> flag (option_map (prefix N) pm) j = flag pm j.
Proof.
  intros Hj. destruct pm as [m|]; [|reflexivity]. unfold flag. on_rows.
  simpl option_map. on_rows.
  f_equal. revert j N Hj. induction (t_rows m) as [|r rs IH];
    intros j N Hj.
  - now rewrite firstn_nil.
  - destruct N as [|N]; [lia|]. destruct j as [|j]; [reflexivity|].
    simpl. apply IH. lia.
Qed.

Lemma flag_at_step (pm : option tensor) (t : nat) :
  flag (option_map (at_step t) pm) 0 = flag pm t.
Proof.
  destruct pm as [m|]; [|reflexivity]. unfold flag. simpl option_map.
  on_rows. f_equal. revert t. induction (t_rows m) as [|r rs IH];
    intros [|t]; try reflexivity.
  - simpl skipn. apply IH.
Qed.

Lemma keys_from_firstn (pm : option tensor) (N n : nat) :
  forall (rows : list (list Z)) (start : nat),
    (start + n <= N)%nat ->
    keys_from start (firstn n rows) (option_map (prefix N) pm)
    = firstn n (keys_from start rows pm).
Proof.
  induction n as [|n IH]; intros rows start Hle; [reflexivity|].
  destruct rows as [|row rows]; [reflexivity|].
  cbn [firstn keys_from]. rewrite IH by lia.
  now rewrite flag_prefix by lia.
Qed.

Lemma keys_from_skipn (pm : option tensor) (t : nat) :
  forall (rows : list (list Z)) (start : nat),
    skipn t (keys_from start rows pm)
    = keys_from (start + t) (skipn t rows) pm.
Proof.
  induction t as [|t IH]; intros rows start.
  - simpl. now rewrite Nat.add_0_r.
  - destruct rows as [|row rows]; [reflexivity|].
    cbn [keys_from skipn]. rewrite IH. f_equal. lia.
Qed.

Lemma keys_from_at_step (pm : option tensor) (t : nat)
    (rows : list (list Z)) :
  keys_from 0 (firstn 1 (skipn t rows)) (option_map (at_step t) pm)
  = firstn 1 (skipn t (keys_from 0 rows pm)).
Proof.
  rewrite keys_from_skipn. simpl (0 + t)%nat.
  destruct (skipn t rows) as [|row rest]; [reflexivity|].
  cbn [firstn keys_from]. now rewrite flag_at_step.
Qed.

Lemma firstn_succ {A} (t : nat) (l : list A) :
  firstn (S t) l = firstn t l ++ firstn 1 (skipn t l).
Proof.
  revert l. induction t as [|t IH]; intros [|a l]; try reflexivity.
  cbn [firstn skipn app]. cbn [firstn] in IH. now rewrite IH.
Qed.

Lemma queries_length (mask : option tensor) (past keys : list (list Z * Z))
    (enc : Z) (rows : list (list Z)) :
  forall i : nat,
    List.length (queries mask past keys enc i rows) = List.length rows.
Proof.
  induction rows as [|row rows IH]; intros i; simpl; [reflexivity|].
  now rewrite IH.
Qed.

Lemma full_rows (x x0 : tensor) (pm : option tensor) (enc : Z) :
  tlen x0 = tlen x ->
  queries (Some (mask_forward causal x0)) [] (keys_from 0 (t_rows x) pm)
          enc 0 (t_rows x)
  = causal_rows (keys_from 0 (t_rows x) pm) enc 0 (t_rows x).
Proof.
  intros Hlen. apply queries_causal.
  - rewrite keys_from_length. symmetry. exact Hlen.
  - rewrite keys_from_length. simpl. lia.
Qed.

Lemma layer_full_value (idx : nat) (dim : Z) (x x0 : tensor)
    (pm enc_out enc_padding_mask : option tensor) :
  tlen x0 = tlen x ->
  layer_forward (layer idx dim) x (Some (mask_forward causal x0)) pm
                enc_out enc_padding_mask None
  = {| t_dtype := t_dtype x; t_tail := t_tail x;
       t_rows := causal_rows (keys_from 0 (t_rows x) pm) (enc_term enc_out)
                             0 (t_rows x) |}.
Proof.
  intros Hlen. cbn [layer layer_forward]. now rewrite full_rows.
Qed.

Lemma layer_contract (enc_out enc_padding_mask : option tensor)
    (idx : nat) (dim : Z) :
  LayerContract causal enc_out enc_padding_mask cached idx (layer idx dim).
Proof.
  split.
  - intros x x0 pm. cbn [layer layer_forward tlen time t_rows].
    apply queries_length.
  - intros n x x0 pm Hlen.
    set (pmn := option_map (prefix n) pm).
    rewrite !layer_full_value;
      [|cbn [tlen time prefix t_rows] in *; rewrite !length_firstn; lia
       |exact Hlen].
    cbn [prefix time t_rows t_dtype t_tail]. f_equal.
    rewrite causal_rows_firstn with (N := n) by lia.
    subst pmn. now rewrite keys_from_firstn with (N := n) by lia.
  - intros t x x0 pm b Hlen Ht Hc.
    unfold cached in *.
    change (t_rows (prefix t x)) with (firstn t (t_rows x)) in Hc.
    rewrite keys_from_firstn with (N := t) in Hc by lia.
    change (t_rows (prefix (S t) x)) with (firstn (S t) (t_rows x)).
    rewrite keys_from_firstn with (N := S t) by lia.
    rewrite layer_full_value by exact Hlen.
    set (pmt := option_map (at_step t) pm).
    cbn [layer layer_forward layer_update caches at_step time t_rows
         t_dtype t_tail].
    subst pmt. rewrite !keys_from_at_step, Nat.eqb_refl, Hc.
    set (keys := keys_from 0 (t_rows x) pm) in *.
    split; [|now rewrite (firstn_succ t keys)].
    f_equal. rewrite causal_rows_skipn. simpl (0 + t)%nat.
    cbn [tlen time] in Ht.
    destruct (skipn t (t_rows x)) as [|row rest] eqn:Eskip.
    { exfalso. apply (f_equal (@List.length _)) in Eskip.
      rewrite length_skipn in Eskip. simpl in Eskip. lia. }
    rewrite causal_rows_cons.
    change (firstn 1 (row :: rest)) with [row].
    change (firstn 1 (?r :: causal_rows keys (enc_term enc_out) (S t) rest))
      with [r].
    cbn [queries]. f_equal. apply map_ext. intros v.
    rewrite (firstn_succ t keys), attend_app. lia.
  - intros jdx x m pm b y pmy Hne Hc. unfold cached in *.
    cbn [layer layer_update caches].
    destruct (Nat.eqb jdx idx) eqn:E; [|exact Hc].
    apply Nat.eqb_eq in E. contradiction.
  - reflexivity.
Qed.

(** The stack of [d44] in inference mode keeps the incremental contract. *)
Lemma d44_contract (enc_out enc_padding_mask : option tensor) :
  IncrementalContract (eval d44) enc_out enc_padding_mask cached.
Proof.
  split.
  - exact time_laws.
  - exact torch_contract.
  - exact bag_laws.
  - apply embedding_position_wise.
  - intros pe Hpe. inversion Hpe; subst. apply positional_contract.
  - intros idx l Hl.
    destruct idx as [|[|idx]]; simpl in Hl.
    + inversion Hl; subst. apply layer_contract.
    + inversion Hl; subst. apply layer_contract.
    + destruct idx; discriminate Hl.
  - intros idx x pm. reflexivity.
  - intros idx b x pm Hc. exact Hc.
Qed.

(** *** Shapes, masks and scaling *)

Lemma project_shape (p : InternalDimProjection) (x : tensor)
    (lead : list Z) :
  lead <> [] ->
  Tensor_shape x = lead ++ [inp_dim p] ->
  Tensor_shape (Projection_forward p x) = lead ++ [out_dim p].
Proof.
  intros Hlead Hshape. destruct lead as [|a lead]; [contradiction|].
  cbn [Tensor_shape torch] in Hshape. simpl in Hshape.
  inversion Hshape as [[Ha Htail]].
  cbn [Projection_forward Tensor_shape torch]. unfold project.
  rewrite Htail, rev_app_distr. simpl rev. cbn [app].
  rewrite Z.eqb_refl. cbn [map_rows t_rows t_tail].
  now rewrite length_map, rev_involutive.
Qed.

Lemma shape_contract (embedding_dim model_dim : Z) (scale : float)
    (ids : list nat) (norm_order : TransformerNormOrder) (mode : bool) :
  ShapeContract
    (train mode
       (built embedding_dim model_dim scale
              (map (fun id => layer id model_dim) ids) norm_order)).
Proof.
  split; cbn [train built embed pos_embed layers modules].
  - intros s. cbn [Tensor_shape torch embedding embed_forward map_rows
                   t_rows t_tail]. simpl.
    now rewrite length_map.
  - intros x c. cbn [Tensor_shape torch Tensor_mul each map_rows t_rows
                     t_tail].
    now rewrite length_map.
  - intros pe Hpe x b. inversion Hpe; subst.
    cbn [Tensor_shape torch positional pos_forward t_rows t_tail].
    now rewrite number_from_length.
  - intros ln x. cbn [Tensor_shape torch LayerNorm_forward map_rows t_rows
                      t_tail].
    now rewrite length_map.
  - intros x p r. cbn [Tensor_shape torch dropout_train each map_rows
                       t_rows t_tail].
    now rewrite length_map.
  - apply project_shape.
  - intros l Hl x m pm enc_out enc_padding_mask b.
    apply in_map_iff in Hl. destruct Hl as [id [<- _]].
    cbn [Tensor_shape torch layer layer_forward t_rows t_tail].
    now rewrite queries_length.
Qed.

Lemma mul_one (x : tensor) : Tensor_mul x 1%float = x.
Proof.
  cbn [Tensor_mul torch]. unfold each, map_rows.
  change (Z_of_float 1) with 1.
  rewrite (map_ext (map (fun v => v * 1)) (fun row => row)).
  - now rewrite map_id, eta.
  - intros row. rewrite (map_ext (fun v => v * 1) (fun v => v)).
    + apply map_id.
    + intros v. lia.
Qed.

Lemma eq_marks (x : tensor) (p : Z) (i : nat) :
  marked (Tensor_eq x p) i <-> elem x i = Some p.
Proof.
  unfold marked, elem. cbn [Tensor_eq torch map_rows t_rows].
  rewrite nth_error_map.
  destruct (nth_error (t_rows x) i) as [[|v row]|]; simpl.
  - split; [intros [? [? [E _]]]; discriminate E | discriminate].
  - destruct (v =? p) eqn:E.
    + apply Z.eqb_eq in E. subst v. split; [reflexivity|].
      intros _. eexists. eexists. split; [reflexivity | lia].
    + apply Z.eqb_neq in E. split.
      * intros [? [? [E' Hne]]]. inversion E'; subst. contradiction.
      * intros E'. inversion E'. contradiction.
  - split; [intros [? [? [E _]]]; discriminate E | discriminate].
Qed.

Lemma to_float_mask_marks (m : tensor) (dt : DataType) (i : nat) :
  marked (to_float_mask m dt) i <-> marked m i.
Proof.
  unfold marked. cbn [to_float_mask torch map_rows t_rows].
  rewrite nth_error_map.
  destruct (nth_error (t_rows m) i) as [[|v row]|]; simpl.
  - split; intros [? [? [E _]]]; discriminate E.
  - split; intros [w [rest [E Hne]]]; inversion E; subst.
    + destruct (v =? 0) eqn:Ev; [contradiction|].
      apply Z.eqb_neq in Ev. eexists. eexists. now split.
    + eexists. eexists. split; [reflexivity|].
      apply Z.eqb_neq in Hne. rewrite Hne. unfold neg_inf. lia.
  - split; intros [? [? [E _]]]; discriminate E.
Qed.

Lemma to_float_mask_dtype (m : tensor) (f : FloatType) :
  Tensor_dtype (to_float_mask m (dtype_float f)) = dtype_float f.
Proof. reflexivity. Qed.

End ToyFacts.

(** * The properties on the executable instance *)

Section Instances.

Import Toy.

#[local] Set Warnings "-inexact-float".

Local Abbreviation seq305 := (tokens [3; 0; 5]).


(** C2, at the failing input.  Handed the layers of widths 4 and 8 as a
    generator, the constructor raises nothing and returns a decoder whose
    stack holds both; handed the same layers as a list, it raises the width
    error that names layer 1. *)
Theorem generator_layers_escape_width_check :
  mismatched_generator = inr d_mismatched
  /\ map (fun l => layer_model_dim l) (modules (layers d_mismatched))
     = [4; 8]
  /\ mismatched_list = inl (Py.ValueError_layer_model_dim 1 8 4).
Proof. repeat split; reflexivity. Qed.



Local Abbreviation world0 :=
  {| w_self := d44; w_state_bag := None; w_noise := quiet;
     w_trace := [] |}.

Lemma padding_mask_witness :
  (forall x p i, marked (Tensor_eq x p) i <-> elem x i = Some p)
  /\ (forall m dt i, marked (to_float_mask m dt) i <-> marked m i)
  /\ exists m : tensor,
       _get_self_attn_padding_mask seq305 world0
       = (Some m,
          logged world0
                 [Call_eq seq305 0;
                  Call_to_float_mask (Tensor_eq seq305 0)
                                     (dtype_float float32)])
       /\ forall i : nat, marked m i <-> elem seq305 i = Some 0.
Proof.
  exact (conj ToyFacts.eq_marks (conj ToyFacts.to_float_mask_marks
           (padding_mask_marks_exactly_padding
              elem marked ToyFacts.eq_marks ToyFacts.to_float_mask_marks
              seq305 world0))).
Defined.

Local Abbreviation run305 :=
  (run_forward (eval d44) quiet seq305 None None None).

Local Abbreviation mask305 :=
  (to_float_mask (Tensor_eq seq305 0) (dtype_float float32)).

Lemma float_padding_mask_witness :
  (forall m f, Tensor_dtype (to_float_mask m (dtype_float f))
               = dtype_float f)
  /\ padding_idx (embed (eval d44)) = Some 0
  /\ In (nth 8 (trace run305) (Call_embed seq305)) (trace run305)
  /\ layer_call_padding_mask (nth 8 (trace run305) (Call_embed seq305))
     = Some (Some mask305)
  /\ exists m : tensor,
       Some mask305 = Some m
       /\ m = mask305
       /\ Tensor_dtype m = dtype_float float32
       /\ is_floating_point (Tensor_dtype m) = true.
Proof.
  assert (Hp : padding_idx (embed (eval d44)) = Some 0) by reflexivity.
  assert (Hin : In (nth 8 (trace run305) (Call_embed seq305))
                   (trace run305))
    by (apply nth_In; vm_compute; lia).
  assert (Hpm : layer_call_padding_mask
                  (nth 8 (trace run305) (Call_embed seq305))
                = Some (Some mask305)) by reflexivity.
  exact (conj ToyFacts.to_float_mask_dtype (conj Hp (conj Hin (conj Hpm
           (layers_receive_float_padding_mask
              ToyFacts.to_float_mask_dtype (eval d44) quiet seq305 None
              None None Hp _ Hin Hpm))))).
Defined.


Lemma adapters_witness :
  decoder_4_8 = inr d48
  /\ inp_dim_proj d48 = Some (InternalDimProjection_new 4 8 no_kwargs)
  /\ out_dim_proj d48 = Some (InternalDimProjection_new 8 4 no_kwargs)
  /\ List.length
       (filter is_projection_call
               (trace (run_forward (train false d48) quiet seq305 None None
                                   None))) = 2%nat.
Proof.
  assert (Hb : decoder_4_8 = inr d48) by reflexivity.
  exact (conj Hb (adapters_exist_iff_widths_differ
                    _ _ _ _ _ _ _ _ _ _ _ _ _ false quiet seq305 None None
                    None Hb)).
Defined.

Local Abbreviation noisy :=
  {| dropout_noise := 0; layer_draws := [0.25%float; 0.75%float] |}.

Lemma inference_witness :
  training (eval d44) = false
  /\ output (run_forward (eval d44) quiet seq305 None None None)
     = output (run_forward (eval d44) noisy seq305 None None None)
  /\ layers_run (trace (run_forward (eval d44) quiet seq305 None None None))
     = [Some 0%nat; Some 1%nat].
Proof.
  assert (He : training (eval d44) = false) by reflexivity.
  pose proof (inference_is_deterministic
                (eval d44) quiet noisy seq305 None None None He)
    as [Hout [_ [_ Hrun]]].
  exact (conj He (conj Hout Hrun)).
Defined.

(** In training mode LayerDrop does skip layers: with draws 0.25 and 0.75
    against a probability of 0.5 only layer 1 runs. *)
Example training_layer_drop :
  layers_run (trace (run_forward d44 noisy seq305 None None None))
  = [Some 1%nat].
Proof. reflexivity. Qed.

(** Three incremental steps against the three full passes, by evaluation;
    position 1 of the input is padding. *)
Example decode_305 :
  fst (decode_steps (eval d44) (fun _ => quiet) seq305 None None 3)
  = map (fun n => at_step (n - 1)
                          (full_pass (eval d44) quiet seq305 None None n))
        [1; 2; 3]%nat.
Proof. vm_compute. reflexivity. Qed.

Example math_sqrt_512 :
  Py.math_sqrt 512 = inr 0x1.6a09e667f3bcdp+4%float
  /\ Py.math_sqrt (-1) = inl Py.ValueError_math_domain
  /\ Py.math_sqrt 1 = inr 1%float.
Proof. repeat split; reflexivity. Qed.

End Instances.

(** * Further properties of construction and of the forward pass *)

(** ** Construction from a list *)

Section ConstructionFacts.

Context {Tensor Bag : Type}.

Local Abbreviation Decoder := (StandardTransformerDecoder Tensor Bag).
Local Abbreviation Layer := (TransformerDecoderLayer Tensor Bag).

Lemma check_layer_dims_inv (model_dim : Z) (ls : list Layer) :
  forall (start : nat) (u : unit),
    check_layer_dims model_dim (Py.enumerate_from start ls) = inr u ->
    Forall (fun l => layer_model_dim l = model_dim) ls.
Proof.
  induction ls as [|l ls IH]; intros start u Hc; [constructor|].
  simpl in Hc. destruct (layer_model_dim l =? model_dim) eqn:E;
    simpl in Hc; [|discriminate Hc].
  apply Z.eqb_eq in E. constructor; [exact E|]. eapply IH. exact Hc.
Qed.

Variable default_gen : AttentionMaskGenerator Tensor.
Variable emb : Embedding Tensor.
Variable pos : option (PositionalEmbedding Tensor Bag).
Variables no_scale_embed norm_embed : bool.
Variable embed_dropout : float.
Variable mask_gen : option (AttentionMaskGenerator Tensor).
Variable layer_drop : float.
Variable norm_order : TransformerNormOrder.
Variable norm_eps : float.
Variable dev : option Device.
Variable dt : option DataType.

Local Abbreviation construct layer_arg :=
  (__init__ default_gen emb pos layer_arg no_scale_embed norm_embed
            embed_dropout mask_gen layer_drop norm_order norm_eps dev dt).

Lemma init_list_checked (layer0 : Layer) (rest : list Layer)
    (self : Decoder) :
  construct (Py.Sequence (layer0 :: rest)) = inr self ->
  Forall (fun l => layer_model_dim l = layer_model_dim layer0)
         (layer0 :: rest).
Proof.
  intros Hinit.
  destruct (check_layer_dims (layer_model_dim layer0)
              (Py.enumerate_from 0 (layer0 :: rest))) as [e|u] eqn:Ec.
  - exfalso. unfold __init__, ModuleList_new, Py.enumerate in Hinit.
    simpl in Hinit, Ec. rewrite Ec in Hinit. discriminate Hinit.
  - eapply check_layer_dims_inv. exact Ec.
Qed.

(** X1.  A decoder built from a list holds that list as its stack, takes
    the width of the first layer as [model_dim], and every layer of its
    stack has that width. *)
Theorem init_list_uniform_width (items : list Layer) (self : Decoder) :
  construct (Py.Sequence items) = inr self ->
  modules (layers self) = items
  /\ (exists layer0 rest,
        items = layer0 :: rest /\ model_dim self = layer_model_dim layer0)
  /\ Forall (fun l => layer_model_dim l = model_dim self)
            (modules (layers self)).
Proof.
  intros Hinit. pose proof Hinit as Hf. apply init_fields in Hf.
  destruct Hf as [layer0 [rest [Hit [_ [Hm [_ [_ [_ [_ [_ [_ [_ [_ [Hl _
    ]]]]]]]]]]]]]].
  simpl in Hit. rewrite Hl. simpl. rewrite Hit.
  split; [reflexivity|]. split; [now exists layer0, rest|].
  subst items. rewrite Hm. eapply init_list_checked. exact Hinit.
Qed.


Lemma check_layer_dims_first (model_dim : Z) (ls : list Layer) :
  forall (start idx : nat) (l : Layer),
    nth_error ls idx = Some l ->
    layer_model_dim l <> model_dim ->
    Forall (fun l' => layer_model_dim l' = model_dim) (firstn idx ls) ->
    check_layer_dims model_dim (Py.enumerate_from start ls)
    = inl (Py.ValueError_layer_model_dim (start + idx) (layer_model_dim l)
                                         model_dim).
Proof.
  induction ls as [|l0 ls IH]; intros start idx l Hn Hd Hall.
  - destruct idx; discriminate Hn.
  - destruct idx as [|idx]; simpl in *.
    + inversion Hn; subst l0. apply Z.eqb_neq in Hd. rewrite Hd. simpl.
      now rewrite Nat.add_0_r.
    + apply Forall_cons_iff in Hall. destruct Hall as [H0 Hrest].
      rewrite H0, Z.eqb_refl. simpl.
      rewrite (IH (S start) idx l Hn Hd Hrest). do 2 f_equal. lia.
Qed.

Lemma check_layer_dims_error (model_dim : Z) (ls : list Layer) :
  forall (start : nat) (e : Py.Exception),
    check_layer_dims model_dim (Py.enumerate_from start ls) = inl e ->
    exists (idx : nat) (l : Layer),
      e = Py.ValueError_layer_model_dim (start + idx) (layer_model_dim l)
                                        model_dim
      /\ nth_error ls idx = Some l
      /\ layer_model_dim l <> model_dim
      /\ Forall (fun l' => layer_model_dim l' = model_dim) (firstn idx ls).
Proof.
  induction ls as [|l0 ls IH]; intros start e He; simpl in He;
    [discriminate He|].
  destruct (layer_model_dim l0 =? model_dim) eqn:E; simpl in He.
  - apply Z.eqb_eq in E.
    destruct (IH (S start) e He) as [idx [l [-> [Hn [Hd Hall]]]]].
    exists (S idx), l. split; [f_equal; lia|].
    split; [exact Hn|]. split; [exact Hd|]. simpl. now constructor.
  - apply Z.eqb_neq in E. inversion He; subst e. exists 0%nat, l0.
    rewrite Nat.add_0_r. split; [reflexivity|]. split; [reflexivity|].
    split; [exact E | constructor].
Qed.

Lemma scale_error_kind (e : Py.Exception) :
  (if no_scale_embed then Py.ok 1%float
   else Py.math_sqrt (embedding_dim emb)) = inl e ->
  e = Py.ValueError_math_domain \/ e = Py.OverflowError_int_too_large.
Proof.
  destruct no_scale_embed; [discriminate|].
  unfold Py.math_sqrt, Py.float_of_int, Py.raise, Py.ok.
  destruct (PrimFloat.is_infinity _).
  - intros E. inversion E. now right.
  - destruct (embedding_dim emb <? 0); intros E; inversion E. now left.
Qed.

(** X3.  The emptiness check comes first and holds for every kind of
    iterable: the constructor raises the no-layers error exactly when the
    iterable yields nothing, whatever the other arguments are. *)
Theorem no_layers_error_iff_nothing_yielded
    (layer_arg : Py.Iterable Layer) :
  construct layer_arg = inl Py.ValueError_no_layers
  <-> fst (Py.iterate layer_arg) = [].
Proof.
  split; [|apply init_rejects_no_layers].
  unfold __init__, ModuleList_new.
  destruct (Py.iterate layer_arg) as [items layers'] eqn:Hit. simpl.
  destruct items as [|layer0 rest]; [reflexivity|].
  intros Herr. exfalso.
  destruct (Py.iterate layers') as [second_pass layers''].
  destruct (check_layer_dims (layer_model_dim layer0)
                             (Py.enumerate second_pass)) as [e|u] eqn:Ec.
  - apply check_layer_dims_error in Ec.
    destruct Ec as [idx [l [-> _]]]. discriminate Herr.
  - destruct (if no_scale_embed then _ else _) as [e|s] eqn:Es.
    + apply scale_error_kind in Es. inversion Herr; subst e.
      destruct Es; discriminate.
    + destruct pos as [pe|]; [|discriminate Herr].
      destruct (negb _); discriminate Herr.
Qed.

(** X4.  For a list, the width error is raised exactly when some layer
    differs in width from the first, and it reports the first such layer:
    its index, its width and the width of layer 0.  The check precedes the
    scale factor and the positional encoder. *)
Theorem width_error_iff_first_mismatch
    (items : list Layer) (idx : nat) (d m : Z) :
  construct (Py.Sequence items)
  = inl (Py.ValueError_layer_model_dim idx d m)
  <-> exists (layer0 l : Layer) (rest : list Layer),
        items = layer0 :: rest
        /\ m = layer_model_dim layer0
        /\ nth_error items idx = Some l
        /\ d = layer_model_dim l
        /\ d <> m
        /\ Forall (fun l' => layer_model_dim l' = m) (firstn idx items).
Proof.
  split.
  - unfold __init__, ModuleList_new, Py.enumerate. simpl.
    destruct items as [|layer0 rest]; [discriminate|].
    destruct (check_layer_dims (layer_model_dim layer0)
                (Py.enumerate_from 0 (layer0 :: rest))) as [e|u] eqn:Ec.
    + intros Herr. inversion Herr; subst e.
      apply check_layer_dims_error in Ec.
      destruct Ec as [i [l [He [Hn [Hd Hall]]]]].
      inversion He; subst. exists layer0, l, rest.
      repeat (split; [first [reflexivity | assumption]|]). exact Hall.
    + intros Herr. exfalso.
      destruct (if no_scale_embed then _ else _) as [e|s] eqn:Es.
      * apply scale_error_kind in Es. inversion Herr; subst e.
        destruct Es; discriminate.
      * destruct pos as [pe|]; [|discriminate Herr].
        destruct (negb _); discriminate Herr.
  - intros [layer0 [l [rest [-> [-> [Hn [-> [Hd Hall]]]]]]]].
    unfold __init__, ModuleList_new, Py.enumerate.
    cbn [Py.iterate fst snd modules].
    now rewrite (@check_layer_dims_first (layer_model_dim layer0)
                   (layer0 :: rest) 0%nat idx l Hn Hd Hall).
Qed.

(** X5.  When the layers of a list pass and the scale factor is computed,
    a positional encoder of another width makes the constructor raise the
    error that reports both widths. *)
Theorem init_rejects_pos_embed_with_both_widths
    (layer0 : Layer) (rest : list Layer)
    (pe : PositionalEmbedding Tensor Bag) :
  Forall (fun l => layer_model_dim l = layer_model_dim layer0) rest ->
  (no_scale_embed = true
   \/ Py.is_error (Py.math_sqrt (embedding_dim emb)) = false) ->
  pos = Some pe ->
  pos_embedding_dim pe <> embedding_dim emb ->
  construct (Py.Sequence (layer0 :: rest))
  = inl (Py.ValueError_pos_embed_dim (pos_embedding_dim pe)
                                     (embedding_dim emb)).
Proof.
  intros Hall Hscale Hpos Hne.
  unfold __init__, ModuleList_new, Py.enumerate. simpl.
  rewrite Z.eqb_refl. simpl.
  rewrite check_layer_dims_pass by exact Hall.
  assert (Hs : exists s, (if no_scale_embed then Py.ok 1%float
                          else Py.math_sqrt (embedding_dim emb)) = inr s).
  { destruct no_scale_embed; [now exists 1%float|].
    destruct Hscale as [Hn|Hok]; [discriminate Hn|].
    destruct (Py.math_sqrt (embedding_dim emb)) as [e|s];
      [discriminate Hok | now exists s]. }
  destruct Hs as [s Hs]. rewrite Hs, Hpos.
  apply Z.eqb_neq in Hne. now rewrite Hne.
Qed.

(** X6.  [extra_repr] of a constructed decoder shows the width of the
    first layer the iterable yielded, in either mode. *)
Theorem extra_repr_shows_first_layer_width
    (layer_arg : Py.Iterable Layer) (self : Decoder) (mode : bool)
    (layer0 : Layer) (rest : list Layer) :
  construct layer_arg = inr self ->
  fst (Py.iterate layer_arg) = layer0 :: rest ->
  extra_repr (train mode self)
  = ("model_dim=" ++ Py.str (layer_model_dim layer0))%string.
Proof.
  intros Hinit Hit. apply init_fields in Hinit.
  destruct Hinit as [l0 [r0 [Hit' [_ [Hm _]]]]].
  rewrite Hit in Hit'. inversion Hit'; subst.
  unfold extra_repr. simpl. now rewrite Hm.
Qed.

End ConstructionFacts.

(** ** The calls of one forward pass *)

Section ForwardFacts.

Context {Tensor Bag Rand : Type} `{Torch Tensor Rand}.

Local Abbreviation Decoder := (StandardTransformerDecoder Tensor Bag).
Local Abbreviation Layer := (TransformerDecoderLayer Tensor Bag).
Local Abbreviation Call := (Call Tensor Bag).
Local Abbreviation Noise := (Noise Rand).

Lemma sorted_app {A} (R : A -> A -> Prop) (l1 l2 : list A) :
  StronglySorted R l1 ->
  StronglySorted R l2 ->
  (forall a b, In a l1 -> In b l2 -> R a b) ->
  StronglySorted R (l1 ++ l2).
Proof.
  induction l1 as [|a l1 IH]; intros H1 H2 H12; [exact H2|].
  inversion H1 as [|? ? Hs Hall]; subst. simpl. constructor.
  - apply IH; [exact Hs | exact H2 |].
    intros x y Hx Hy. apply H12; [now right | exact Hy].
  - apply Forall_app. split; [exact Hall|].
    apply Forall_forall. intros y Hy. apply H12; [now left | exact Hy].
Qed.

Lemma sorted_filter {A} (R : A -> A -> Prop) (f : A -> bool) (l : list A) :
  StronglySorted R l -> StronglySorted R (filter f l).
Proof.
  induction l as [|a l IH]; intros Hs; [constructor|].
  inversion Hs as [|? ? Hs' Hall]; subst. simpl.
  destruct (f a); [|now apply IH].
  constructor; [now apply IH|].
  apply Forall_forall. intros y Hy. apply filter_In in Hy.
  rewrite Forall_forall in Hall. now apply Hall.
Qed.

Lemma enumerate_from_increasing {A} (xs : list A) :
  forall start : nat,
    StronglySorted (fun a b => (fst a < fst b)%nat)
                   (Py.enumerate_from start xs)
    /\ Forall (fun a => (start <= fst a)%nat) (Py.enumerate_from start xs).
Proof.
  induction xs as [|x xs IH]; intros start; simpl.
  - split; constructor.
  - destruct (IH (S start)) as [Hs Hall]. split.
    + constructor; [exact Hs|].
      eapply Forall_impl; [|exact Hall]. simpl. intros a Ha. lia.
    + constructor; [simpl; lia|].
      eapply Forall_impl; [|exact Hall]. simpl. intros a Ha. lia.
Qed.

Lemma ModuleList_iter_increasing (ml : ModuleList Tensor Bag)
    (training : bool) (draws : list float) :
  StronglySorted (fun a b => (fst a < fst b)%nat)
                 (ModuleList_iter ml training draws).
Proof.
  unfold ModuleList_iter.
  destruct (PrimFloat.ltb 0 (if training then drop_p ml else 0%float)).
  - apply sorted_filter. apply (enumerate_from_increasing (modules ml) 0).
  - apply (enumerate_from_increasing (modules ml) 0).
Qed.

Lemma layers_calls_stage
    (mask pm enc_out enc_padding_mask : option Tensor)
    (ls : list (nat * Layer)) :
  forall (bag : option Bag) (x : Tensor) (c : Call),
    In c (layers_calls mask pm enc_out enc_padding_mask ls bag x) ->
    stage c = 9%nat /\ exists l, In (layer_index c, l) ls.
Proof.
  induction ls as [|[idx l] ls IH]; intros bag x c Hin; simpl in Hin.
  - contradiction.
  - destruct Hin as [<- | Hin].
    + split; [reflexivity|]. exists l. now left.
    + destruct (IH _ _ _ Hin) as [Hs [l' Hl']].
      split; [exact Hs|]. exists l'. now right.
Qed.

Lemma layers_calls_sorted
    (mask pm enc_out enc_padding_mask : option Tensor)
    (ls : list (nat * Layer)) :
  StronglySorted (fun a b => (fst a < fst b)%nat) ls ->
  forall (bag : option Bag) (x : Tensor),
    StronglySorted before
      (layers_calls mask pm enc_out enc_padding_mask ls bag x).
Proof.
  induction ls as [|[idx l] ls IH]; intros Hs bag x; simpl; [constructor|].
  inversion Hs as [|? ? Hs' Hall]; subst.
  constructor; [now apply IH|].
  apply Forall_forall. intros c Hin.
  destruct (layers_calls_stage _ _ _ _ _ _ _ _ Hin) as [Hst [l' Hl']].
  right. split; [now rewrite Hst|]. simpl.
  rewrite Forall_forall in Hall. apply (Hall _ Hl').
Qed.

(** A list of calls in program order whose stages lie between [lo] and
    [hi]. *)
Definition staged (lo hi : nat) (cs : list Call) : Prop :=
  StronglySorted before cs
  /\ Forall (fun c => (lo <= stage c <= hi)%nat) cs.

Lemma staged_app (lo1 hi1 lo2 hi2 : nat) (l1 l2 : list Call) :
  staged lo1 hi1 l1 -> staged lo2 hi2 l2 ->
  (hi1 < lo2)%nat -> (lo1 <= lo2)%nat -> (hi1 <= hi2)%nat ->
  staged lo1 hi2 (l1 ++ l2).
Proof.
  intros [Hs1 Hb1] [Hs2 Hb2] Hlt Hlo Hhi. split.
  - apply sorted_app; try assumption.
    intros a b Ha Hb. left.
    rewrite Forall_forall in Hb1, Hb2.
    specialize (Hb1 a Ha). specialize (Hb2 b Hb). lia.
  - apply Forall_app. split.
    + eapply Forall_impl; [|exact Hb1]. simpl. intros c Hc. lia.
    + eapply Forall_impl; [|exact Hb2]. simpl. intros c Hc. lia.
Qed.

Ltac staged_list :=
  split;
  [ repeat (constructor; [|repeat (constructor; [left; simpl; lia|])]);
    try constructor
  | repeat (constructor; [simpl; lia|]); try constructor ].

Lemma padding_mask_calls_staged (self : Decoder) (seq : Tensor) :
  staged 0 1 (padding_mask_calls self seq).
Proof.
  unfold padding_mask_calls.
  destruct (padding_idx (embed self)); staged_list.
Qed.

Lemma embed_calls_staged (self : Decoder) (bag : option Bag)
    (seq : Tensor) :
  staged 2 6 (embed_calls self bag seq).
Proof.
  unfold embed_calls.
  destruct (scales self), (pos_embed self), (embed_norm self),
    (drops self); simpl; staged_list.
Qed.

Lemma stack_calls_staged (self : Decoder) (noise : Noise)
    (bag : option Bag) (pm enc_out enc_padding_mask : option Tensor)
    (x : Tensor) :
  staged 8 10 (stack_calls self noise bag pm enc_out enc_padding_mask x).
Proof.
  unfold stack_calls.
  apply (staged_app (lo1 := 8) (hi1 := 8) (lo2 := 9) (hi2 := 10));
    try lia.
  - destruct (training self || is_None bag); staged_list.
  - apply (staged_app (lo1 := 9) (hi1 := 9) (lo2 := 10) (hi2 := 10));
      try lia.
    + split.
      * apply layers_calls_sorted. apply ModuleList_iter_increasing.
      * apply Forall_forall. intros c Hin.
        apply layers_calls_stage in Hin. destruct Hin as [-> _]. lia.
    + destruct (layer_norm self); staged_list.
Qed.

(** X7.  The collaborator calls of a forward pass are made in the order of
    the program text: padding mask, embedding, scaling, positions, embedding
    norm, dropout, input adapter, mask generation, the layers by increasing
    index, stack norm, output adapter.  The order is strict, so no call is
    made twice and no layer runs twice or out of turn. *)
Theorem forward_calls_in_program_order
    (self : Decoder) (noise : Noise) (seq : Tensor)
    (enc_out enc_padding_mask : option Tensor) (state_bag : option Bag) :
  StronglySorted before
    (trace (run_forward self noise seq enc_out enc_padding_mask state_bag)).
Proof.
  unfold trace. rewrite run_forward_eq. simpl. unfold forward_calls.
  apply (staged_app (lo1 := 0) (hi1 := 1) (lo2 := 2) (hi2 := 11));
    try lia; [apply padding_mask_calls_staged|].
  apply (staged_app (lo1 := 2) (hi1 := 6) (lo2 := 7) (hi2 := 11));
    try lia; [apply embed_calls_staged|].
  apply (staged_app (lo1 := 7) (hi1 := 7) (lo2 := 8) (hi2 := 11));
    try lia; [destruct (inp_dim_proj self); staged_list|].
  apply (staged_app (lo1 := 8) (hi1 := 10) (lo2 := 11) (hi2 := 11));
    try lia; [apply stack_calls_staged|].
  destruct (out_dim_proj self); staged_list.
Qed.

Lemma forward_calls_layer_calls (self : Decoder) (noise : Noise)
    (seq : Tensor) (enc_out enc_padding_mask : option Tensor)
    (bag : option Bag) :
  filter is_layer_call
         (forward_calls self noise seq enc_out enc_padding_mask bag)
  = layers_calls
      (self_attn_mask_value self bag (stack_input self noise bag seq))
      (padding_mask_value self seq) enc_out enc_padding_mask
      (ModuleList_iter (layers self) (training self) (layer_draws noise))
      bag (stack_input self noise bag seq).
Proof.
  unfold forward_calls, stack_calls. rewrite !filter_app.
  rewrite (filter_none is_layer_call plain (padding_mask_calls self seq)
             (padding_mask_calls_plain self seq)).
  2:{ intros c. destruct c; simpl; try reflexivity; discriminate. }
  rewrite (filter_none is_layer_call is_embed_path_call
             (embed_calls self bag seq) (embed_calls_kinds self bag seq)).
  2:{ intros c. destruct c; simpl; try reflexivity; discriminate. }
  rewrite (filter_all is_layer_call (layers_calls _ _ _ _ _ _ _)).
  2:{ apply forallb_forall. intros c Hin.
      now apply layers_calls_all_layer_calls in Hin. }
  destruct (inp_dim_proj self), (training self || is_None bag),
    (layer_norm self), (out_dim_proj self); simpl;
    rewrite ?app_nil_r; reflexivity.
Qed.

Lemma layers_calls_follow (self : Decoder)
    (mask pm enc_out enc_padding_mask : option Tensor)
    (ls : list (nat * Layer)) :
  (forall idx l, In (idx, l) ls ->
                 nth_error (modules (layers self)) idx = Some l) ->
  forall (bag : option Bag) (x : Tensor) (k : nat) (c1 c2 : Call),
    nth_error (layers_calls mask pm enc_out enc_padding_mask ls bag x) k
    = Some c1 ->
    nth_error (layers_calls mask pm enc_out enc_padding_mask ls bag x) (S k)
    = Some c2 ->
    follows self c1 c2.
Proof.
  induction ls as [|[idx l] ls IH]; intros Hls bag x k c1 c2 H1 H2.
  - destruct k; discriminate H1.
  - destruct k as [|k].
    + simpl in H1. inversion H1; subst c1. clear H1.
      simpl in H2. destruct ls as [|[jdx l'] ls]; [discriminate H2|].
      simpl in H2. inversion H2; subst c2. simpl.
      exists l. repeat split. apply Hls. now left.
    + simpl in H1, H2. eapply IH; [|exact H1|exact H2].
      intros; apply Hls; now right.
Qed.

Lemma layers_calls_encoder
    (mask pm enc_out enc_padding_mask : option Tensor)
    (ls : list (nat * Layer)) :
  forall (bag : option Bag) (x : Tensor) (c : Call),
    In c (layers_calls mask pm enc_out enc_padding_mask ls bag x) ->
    layer_call_encoder c = Some (enc_out, enc_padding_mask).
Proof.
  induction ls as [|[idx l] ls IH]; intros bag x c Hin; simpl in Hin;
    [contradiction|].
  destruct Hin as [<- | Hin]; [reflexivity | eapply IH; exact Hin].
Qed.

(** X8.  The layer calls of a pass form a chain.  The first carries the bag
    the caller supplied; each later one takes as hidden state what the layer
    before it returned and sees the bag as that layer left it, under the
    same masks; all of them carry the encoder output and encoder padding
    mask the caller passed. *)
Theorem layer_calls_thread_state
    (self : Decoder) (noise : Noise) (seq : Tensor)
    (enc_out enc_padding_mask : option Tensor) (state_bag : option Bag) :
  let calls :=
    filter is_layer_call
           (trace (run_forward self noise seq enc_out enc_padding_mask
                               state_bag)) in
  (forall c, nth_error calls 0 = Some c ->
             layer_call_bag c = Some state_bag)
  /\ (forall k c1 c2,
        nth_error calls k = Some c1 -> nth_error calls (S k) = Some c2 ->
        follows self c1 c2)
  /\ (forall c, In c calls ->
                layer_call_encoder c = Some (enc_out, enc_padding_mask)).
Proof.
  intros calls. unfold calls, trace. rewrite run_forward_eq. simpl.
  rewrite forward_calls_layer_calls.
  split; [|split].
  - intros c Hc.
    destruct (ModuleList_iter _ _ _) as [|[idx l] ls]; [discriminate Hc|].
    simpl in Hc. now inversion Hc.
  - apply layers_calls_follow. apply ModuleList_iter_valid.
  - intros c Hin. eapply layers_calls_encoder. exact Hin.
Qed.

(** X9.  The positional encoder is consulted once if there is one and never
    otherwise, on the scaled embedding and with the bag as the caller
    supplied it: no layer has touched the bag yet. *)
Theorem pos_embed_sees_the_callers_bag
    (self : Decoder) (noise : Noise) (seq : Tensor)
    (enc_out enc_padding_mask : option Tensor) (state_bag : option Bag) :
  filter is_pos_embed_call
         (trace (run_forward self noise seq enc_out enc_padding_mask
                             state_bag))
  = if is_None (pos_embed self) then []
    else [Call_pos_embed (scaled self (embed_forward (embed self) seq))
                         state_bag].
Proof.
  unfold trace. rewrite run_forward_eq. simpl.
  unfold forward_calls, stack_calls, embed_calls, padding_mask_calls.
  rewrite !filter_app. rewrite filter_layers_calls by by_kind.
  destruct (padding_idx (embed self)), (scales self), (pos_embed self),
    (embed_norm self), (drops self), (inp_dim_proj self),
    (training self || is_None state_bag), (layer_norm self),
    (out_dim_proj self); reflexivity.
Qed.

(** X10.  In inference mode with a state bag the configured mask generator
    has no influence: with any other generator in its place, [forward]
    returns the same tensor, leaves the same bag and makes the same
    calls. *)
Theorem incremental_inference_ignores_mask_generator
    (self : Decoder) (g : AttentionMaskGenerator Tensor) (noise : Noise)
    (seq : Tensor) (enc_out enc_padding_mask : option Tensor) (bag : Bag) :
  training self = false ->
  let r1 := run_forward self noise seq enc_out enc_padding_mask
                        (Some bag) in
  let r2 := run_forward (with_self_attn_mask_gen g self) noise seq enc_out
                        enc_padding_mask (Some bag) in
  output r1 = output r2
  /\ state_bag_after r1 = state_bag_after r2
  /\ trace r1 = trace r2.
Proof.
  intros Heval r1 r2.
  unfold r1, r2, output, state_bag_after, trace.
  rewrite !run_forward_eq. simpl.
  unfold forward_value, forward_calls, stack_value, stack_calls, stack_bag,
    self_attn_mask_value.
  simpl. rewrite Heval. simpl. repeat split.
Qed.


End ForwardFacts.

(** ** Constructed decoders at work *)

Section ConstructedFacts.

Context {Tensor Bag Rand : Type} `{Torch Tensor Rand}.

Local Abbreviation Decoder := (StandardTransformerDecoder Tensor Bag).
Local Abbreviation Layer := (TransformerDecoderLayer Tensor Bag).
Local Abbreviation Call := (Call Tensor Bag).
Local Abbreviation Noise := (Noise Rand).

Variable default_gen : AttentionMaskGenerator Tensor.
Variable emb : Embedding Tensor.
Variable pos : option (PositionalEmbedding Tensor Bag).
Variable layer_arg : Py.Iterable Layer.
Variables no_scale_embed norm_embed : bool.
Variable embed_dropout : float.
Variable mask_gen : option (AttentionMaskGenerator Tensor).
Variable layer_drop : float.
Variable norm_order : TransformerNormOrder.
Variable norm_eps : float.
Variable dev : option Device.
Variable dt : option DataType.

Local Abbreviation constructed :=
  (__init__ default_gen emb pos layer_arg no_scale_embed norm_embed
            embed_dropout mask_gen layer_drop norm_order norm_eps dev dt).

(** X12.  The embedding normalizer exists, over [embedding_dim], and runs
    once per call exactly when [norm_embed] is set; the stack normalizer
    exists, over [model_dim], and runs once per call exactly when
    [norm_order] is not [POST].  Both use [norm_eps]. *)
Theorem normalizers_follow_configuration
    (self : Decoder) (mode : bool) (noise : Noise) (seq : Tensor)
    (enc_out enc_padding_mask : option Tensor) (state_bag : option Bag) :
  constructed = inr self ->
  let r := run_forward (train mode self) noise seq enc_out enc_padding_mask
                       state_bag in
  let kw := {| device := dev; dtype := dt |} in
  embed_norm self
  = (if norm_embed
     then Some {| normalized_shape := embedding_dim emb; eps := norm_eps;
                  ln_kwargs := kw |}
     else None)
  /\ layer_norm self
     = (if norm_order_eqb norm_order POST then None
        else Some {| normalized_shape := model_dim self; eps := norm_eps;
                     ln_kwargs := kw |})
  /\ List.length (filter is_embed_norm_call (trace r))
     = (if norm_embed then 1 else 0)%nat
  /\ List.length (filter is_layer_norm_call (trace r))
     = (if norm_order_eqb norm_order POST then 0 else 1)%nat.
Proof.
  intros Hinit r kw. apply init_fields in Hinit.
  destruct Hinit as [layer0 [rest [_ [_ [_ [_ [_ [_ [_ [He [_ [_ [_ [_ [Hl _
    ]]]]]]]]]]]]]]].
  split; [exact He|]. split.
  { rewrite Hl. now destruct (norm_order_eqb norm_order POST). }
  unfold r, trace. rewrite run_forward_eq. simpl.
  unfold forward_calls, stack_calls, embed_calls, padding_mask_calls.
  rewrite !filter_app.
  rewrite !filter_layers_calls by by_kind. simpl.
  rewrite He, Hl.
  split.
  - destruct (padding_idx (embed self)), (scales (train mode self)),
      (pos_embed self), norm_embed, (drops (train mode self)),
      (inp_dim_proj self), (mode || is_None state_bag),
      (norm_order_eqb norm_order POST), (out_dim_proj self); reflexivity.
  - destruct (padding_idx (embed self)), (scales (train mode self)),
      (pos_embed self), norm_embed, (drops (train mode self)),
      (inp_dim_proj self), (mode || is_None state_bag),
      (norm_order_eqb norm_order POST), (out_dim_proj self); reflexivity.
Qed.

Lemma forward_value_embedding_width
    (self : Decoder) (mode : bool) (noise : Noise) (seq : Tensor)
    (enc_out enc_padding_mask : option Tensor) (state_bag : option Bag) :
  constructed = inr self ->
  ShapeContract (train mode self) ->
  Tensor_shape seq <> [] ->
  Tensor_shape (forward_value (train mode self) noise seq enc_out
                              enc_padding_mask state_bag)
  = Tensor_shape seq ++ [embedding_dim emb].
Proof.
  intros Hinit Hc Hseq.
  pose proof Hinit as Ha. apply init_adapters in Ha.
  destruct Ha as [He [Hin [Hout [Hpi Hpo]]]].
  unfold forward_value, stack_value, stack_input.
  set (e := embed_value (train mode self) state_bag (dropout_noise noise)
                        seq).
  assert (Hes : Tensor_shape e = Tensor_shape seq ++ [embedding_dim emb]).
  { unfold e. rewrite embed_value_shape by exact Hc. simpl.
    now rewrite He. }
  assert (Hx : Tensor_shape (inp_projected (train mode self) e)
               = Tensor_shape seq ++ [model_dim self]).
  { unfold inp_projected. simpl.
    destruct (inp_dim_proj self) as [p|] eqn:Ep; simpl in Hin.
    - destruct (Hpi p eq_refl) as [Hi Ho].
      rewrite (projection_shape Hc p e Hseq) by (now rewrite Hi).
      now rewrite Ho.
    - symmetry in Hin. apply Z.eqb_eq in Hin. now rewrite <- Hin. }
  set (x := inp_projected (train mode self) e) in *.
  set (y := layers_value _ _ _ _ _ _ x).
  assert (Hy : Tensor_shape y = Tensor_shape seq ++ [model_dim self]).
  { unfold y. rewrite layers_value_shape with (self := train mode self);
      [exact Hx | exact Hc |].
    intros idx l Hil. apply ModuleList_iter_valid in Hil.
    eapply nth_error_In. exact Hil. }
  set (z := match layer_norm (train mode self) with
            | Some ln => LayerNorm_forward ln y
            | None => y
            end).
  assert (Hz : Tensor_shape z = Tensor_shape seq ++ [model_dim self]).
  { unfold z. destruct (layer_norm (train mode self));
      [rewrite (layer_norm_shape Hc)|]; exact Hy. }
  unfold out_projected. simpl.
  destruct (out_dim_proj self) as [p|] eqn:Ep; simpl in Hout.
  - destruct (Hpo p eq_refl) as [Hi Ho].
    rewrite (projection_shape Hc p z Hseq) by (now rewrite Hi).
    now rewrite Ho.
  - symmetry in Hout. apply Z.eqb_eq in Hout. now rewrite Hout.
Qed.

(** X13.  A [ScoreProjection] built with the embedding's width accepts what
    [forward] returns, whether or not the stack has another width: the
    scores have the dimensions of the input followed by [num_embed].  The
    projection has no bias. *)
Theorem score_projection_fits_decoder_output
    (self : Decoder) (mode : bool) (noise : Noise) (seq : Tensor)
    (enc_out enc_padding_mask : option Tensor) (state_bag : option Bag)
    (num_embed : Z) (kw : FactoryKwargs) :
  constructed = inr self ->
  ShapeContract (train mode self) ->
  Tensor_shape seq <> [] ->
  let final_proj := ScoreProjection_new num_embed (embedding_dim emb) kw in
  let out := output (run_forward (train mode self) noise seq enc_out
                                 enc_padding_mask state_bag) in
  Tensor_shape (Projection_forward final_proj out)
  = Tensor_shape seq ++ [num_embed]
  /\ bias final_proj = false.
Proof.
  intros Hinit Hc Hseq final_proj out. split; [|reflexivity].
  unfold out, output. rewrite run_forward_eq. simpl.
  apply (projection_shape Hc final_proj _ Hseq). simpl.
  now apply forward_value_embedding_width.
Qed.

End ConstructedFacts.

(** ** On the executable instance *)

Section MoreInstances.

Import Toy.

#[local] Set Warnings "-inexact-float".

Local Abbreviation toy_layer := (TransformerDecoderLayer tensor bag).
Local Abbreviation seq305 := (tokens [3; 0; 5]).
Local Abbreviation two_layers := [layer 0 4; layer 1 4].

Lemma init_list_uniform_width_witness :
  decoder_4_8 = inr d48
  /\ modules (layers d48) = [layer 0 8; layer 1 8]
  /\ (exists layer0 rest,
        [layer 0 8; layer 1 8] = layer0 :: rest
        /\ model_dim d48 = layer_model_dim layer0)
  /\ Forall (fun l : toy_layer => layer_model_dim l = model_dim d48)
            (modules (layers d48)).
Proof.
  assert (Hb : decoder_4_8 = inr d48) by reflexivity.
  exact (conj Hb
    (@init_list_uniform_width tensor bag causal (embedding 4 (Some 0))
       (Some (positional 4)) false true 0.1%float None 0.5%float PRE
       1e-5%float None None [layer 0 8; layer 1 8] d48 Hb)).
Defined.

(** A positional encoder of width 6 over an embedding of width 4. *)
Lemma init_rejects_pos_embed_with_both_widths_witness :
  Forall (fun l : toy_layer => layer_model_dim l
                               = layer_model_dim (layer 0 4)) [layer 1 4]
  /\ (false = true \/ Py.is_error (Py.math_sqrt 4) = false)
  /\ Some (positional 6) = Some (positional 6)
  /\ pos_embedding_dim (positional 6)
     <> embedding_dim (embedding 4 (Some 0))
  /\ __init__ causal (embedding 4 (Some 0)) (Some (positional 6))
              (Py.Sequence two_layers) false true 0.1%float None 0.5%float
              PRE 1e-5%float None None
     = inl (Py.ValueError_pos_embed_dim 6 4).
Proof.
  assert (Hall : Forall (fun l : toy_layer =>
                           layer_model_dim l = layer_model_dim (layer 0 4))
                        [layer 1 4])
    by (constructor; [reflexivity | constructor]).
  assert (Hs : false = true \/ Py.is_error (Py.math_sqrt 4) = false)
    by (right; reflexivity).
  assert (Hp : Some (positional 6) = Some (positional 6)) by reflexivity.
  assert (Hne : pos_embedding_dim (positional 6)
                <> embedding_dim (embedding 4 (Some 0)))
    by discriminate.
  exact (conj Hall (conj Hs (conj Hp (conj Hne
    (@init_rejects_pos_embed_with_both_widths tensor bag causal
       (embedding 4 (Some 0)) (Some (positional 6)) false true 0.1%float
       None 0.5%float PRE 1e-5%float None None (layer 0 4) [layer 1 4]
       (positional 6) Hall Hs Hp Hne))))).
Defined.

Lemma extra_repr_witness :
  decoder_4_8 = inr d48
  /\ fst (Py.iterate (Py.Sequence [layer 0 8; layer 1 8]))
     = layer 0 8 :: [layer 1 8]
  /\ extra_repr (train false d48) = "model_dim=8"%string.
Proof.
  assert (Hb : decoder_4_8 = inr d48) by reflexivity.
  assert (Hi : fst (Py.iterate (Py.Sequence [layer 0 8; layer 1 8]))
               = layer 0 8 :: [layer 1 8]) by reflexivity.
  exact (conj Hb (conj Hi
    (@extra_repr_shows_first_layer_width tensor bag causal
       (embedding 4 (Some 0)) (Some (positional 4)) false true 0.1%float
       None 0.5%float PRE 1e-5%float None None
       (Py.Sequence [layer 0 8; layer 1 8]) d48 false (layer 0 8)
       [layer 1 8] Hb Hi))).
Defined.

(** A generator that masks nothing, in place of the causal one. *)
Local Abbreviation open_mask :=
  {| mask_forward := fun x : tensor => each (fun _ => 0) x |}.

Local Abbreviation quiet_run self bag :=
  (run_forward self quiet seq305 None None bag).

Lemma incremental_inference_ignores_mask_generator_witness :
  training (eval d44) = false
  /\ output (quiet_run (eval d44) (Some new_bag))
     = output (quiet_run (with_self_attn_mask_gen open_mask (eval d44))
                         (Some new_bag))
  /\ state_bag_after (quiet_run (eval d44) (Some new_bag))
     = state_bag_after
         (quiet_run (with_self_attn_mask_gen open_mask (eval d44))
                    (Some new_bag))
  /\ trace (quiet_run (eval d44) (Some new_bag))
     = trace (quiet_run (with_self_attn_mask_gen open_mask (eval d44))
                        (Some new_bag)).
Proof.
  assert (He : training (eval d44) = false) by reflexivity.
  exact (conj He
    (incremental_inference_ignores_mask_generator
       (eval d44) open_mask quiet seq305 None None new_bag He)).
Defined.


(** Post-norm: an embedding normalizer and no stack normalizer. *)
Lemma normalizers_follow_configuration_witness :
  decoder_unscaled = inr d44_unscaled
  /\ embed_norm d44_unscaled
     = Some {| normalized_shape := 4; eps := 1e-5%float;
               ln_kwargs := no_kwargs |}
  /\ layer_norm d44_unscaled = None
  /\ List.length (filter is_embed_norm_call
                         (trace (quiet_run (train false d44_unscaled)
                                           None))) = 1%nat
  /\ List.length (filter is_layer_norm_call
                         (trace (quiet_run (train false d44_unscaled)
                                           None))) = 0%nat.
Proof.
  assert (Hb : decoder_unscaled = inr d44_unscaled) by reflexivity.
  exact (conj Hb
    (@normalizers_follow_configuration tensor bag Z torch causal
       (embedding 4 (Some 0)) (Some (positional 4))
       (Py.Sequence two_layers) true true 0.1%float None 0.5%float POST
       1e-5%float None None d44_unscaled false quiet seq305 None None None
       Hb)).
Defined.

(** Scores over 7 symbols from a stack of width 8 over an embedding of
    width 4. *)
Lemma score_projection_witness :
  decoder_4_8 = inr d48
  /\ ShapeContract (train false d48)
  /\ Tensor_shape seq305 <> []
  /\ Tensor_shape
       (Projection_forward (ScoreProjection_new 7 4 no_kwargs)
                           (output (quiet_run (train false d48) None)))
     = [3; 7]
  /\ bias (ScoreProjection_new 7 4 no_kwargs) = false.
Proof.
  assert (Hb : decoder_4_8 = inr d48) by reflexivity.
  assert (Hc : ShapeContract (train false d48))
    by apply (ToyFacts.shape_contract 4 8 2%float [0%nat; 1%nat] PRE false).
  assert (Hs : Tensor_shape seq305 <> []) by discriminate.
  exact (conj Hb (conj Hc (conj Hs
    (@score_projection_fits_decoder_output tensor bag Z torch causal
       (embedding 4 (Some 0)) (Some (positional 4))
       (Py.Sequence [layer 0 8; layer 1 8]) false true 0.1%float None
       0.5%float PRE 1e-5%float None None d48 false quiet seq305 None None
       None 7 no_kwargs Hb Hc Hs)))).
Defined.

End MoreInstances.
